(** * newsAPI: the readable-page endpoint of [app.py]

    A shallow embedding of [fetch_webpage_python], [estimateTokenCount] and
    [get_readable_page], together with models of the library calls they make
    (Python [str] methods, [urllib.parse.urlparse], the BeautifulSoup tree
    operations, [requests.get] and binary64 arithmetic), and the properties
    of the endpoint stated over them.

    Conventions.  A Python [str] is a Rocq [string], one [ascii] per
    character (code points 0 to 255).  An expression that may raise is a
    value of [outcome]; [print] and [app.logger.info] only write to the log
    and are left out. *)

From Stdlib Require Import Bool List String Ascii ZArith QArith Qabs Qround Qpower.
From Stdlib Require Import SpecFloat Morphisms Lia Lqa.
Import ListNotations.

#[local] Set Warnings "-register-all,-notation-for-abbreviation".
Local Open Scope string_scope.

(** ** Exceptions and results *)

(** The classes the [except] clauses of [fetch_webpage_python] tell apart,
    each with [str(e)]: an instance of
    [requests.exceptions.RequestException], a [ValueError] that is not one,
    any other instance of [Exception], and a [BaseException] that is not
    an [Exception] ([KeyboardInterrupt], [SystemExit], [GeneratorExit]),
    which [except Exception] does not catch. *)
Inductive exception : Type :=
| RequestException (msg : string)
| ValueError (msg : string)
| OtherException (msg : string)
| BaseException (msg : string).

Inductive outcome (A : Type) : Type :=
| Returns (a : A)
| Raises (e : exception).

Arguments Returns {A} a.
Arguments Raises {A} e.

Definition bind {A B : Type} (m : outcome A) (k : A -> outcome B) : outcome B :=
  match m with
  | Returns a => k a
  | Raises e => Raises e
  end.

Notation "x <- m ;; k" := (bind m (fun x => k))
  (at level 61, m at next level, right associativity).

(** ** Python [str] methods *)

Module PyStr.

(** [str.isspace] on one character: TAB to CR, FS to US, space, NEL and
    NBSP are the whitespace code points below 256. *)
Definition isspace (c : ascii) : bool :=
  let n := nat_of_ascii c in
  ((9 <=? n) && (n <=? 13) || (28 <=? n) && (n <=? 32)
   || (n =? 133) || (n =? 160))%nat.

Fixpoint lstrip (s : string) : string :=
  match s with
  | EmptyString => EmptyString
  | String c s' => if isspace c then lstrip s' else s
  end.

Fixpoint rstrip (s : string) : string :=
  match s with
  | EmptyString => EmptyString
  | String c s' =>
      match rstrip s' with
      | EmptyString => if isspace c then EmptyString else String c EmptyString
      | r => String c r
      end
  end.

(** [s.strip()] *)
Definition strip (s : string) : string := rstrip (lstrip s).

(** [s.split()]: the maximal runs of non-whitespace characters.  [cur] is
    the word being read, if one has started. *)
Fixpoint split_from (cur : option string) (s : string) : list string :=
  match s with
  | EmptyString =>
      match cur with
      | Some w => [w]
      | None => []
      end
  | String c s' =>
      if isspace c then
        match cur with
        | Some w => w :: split_from None s'
        | None => split_from None s'
        end
      else
        match cur with
        | Some w => split_from (Some (w ++ String c EmptyString)) s'
        | None => split_from (Some (String c EmptyString)) s'
        end
  end.

Definition split (s : string) : list string := split_from None s.

(** [s.startswith(p)] *)
Definition startswith (s p : string) : bool := String.prefix p s.

(** [p in s] *)
Fixpoint contains (p s : string) : bool :=
  String.prefix p s ||
  match s with
  | EmptyString => false
  | String _ s' => contains p s'
  end.

(** [c in s] for one character *)
Fixpoint has_char (c : ascii) (s : string) : bool :=
  match s with
  | EmptyString => false
  | String d s' => Ascii.eqb c d || has_char c s'
  end.

Definition lower_char (c : ascii) : ascii :=
  let n := nat_of_ascii c in
  if ((65 <=? n) && (n <=? 90)
      || (192 <=? n) && (n <=? 222) && negb (n =? 215))%nat
  then ascii_of_nat (n + 32) else c.

(** [s.lower()] *)
Fixpoint lower (s : string) : string :=
  match s with
  | EmptyString => EmptyString
  | String c s' => String (lower_char c) (lower s')
  end.

(** [sep.join(l)] *)
Fixpoint join (sep : string) (l : list string) : string :=
  match l with
  | [] => EmptyString
  | [x] => x
  | x :: l' => x ++ sep ++ join sep l'
  end.

(** Truth value of a string: [if s:] holds for the non-empty ones. *)
Definition truthy (s : string) : bool :=
  match s with
  | EmptyString => false
  | String _ _ => true
  end.

Fixpoint filter_chars (f : ascii -> bool) (s : string) : string :=
  match s with
  | EmptyString => EmptyString
  | String c s' => if f c then String c (filter_chars f s') else filter_chars f s'
  end.

Fixpoint all_chars (f : ascii -> bool) (s : string) : bool :=
  match s with
  | EmptyString => true
  | String c s' => f c && all_chars f s'
  end.

(** [s[:i]] and [s[i:]] *)
Fixpoint take (n : nat) (s : string) : string :=
  match n, s with
  | S n', String c s' => String c (take n' s')
  | _, _ => EmptyString
  end.

Fixpoint drop (n : nat) (s : string) : string :=
  match n, s with
  | S n', String _ s' => drop n' s'
  | _, _ => s
  end.

(** [s.find(c)] for one character, [None] for -1 *)
Fixpoint find_char (f : ascii -> bool) (s : string) : option nat :=
  match s with
  | EmptyString => None
  | String c s' =>
      if f c then Some 0%nat
      else match find_char f s' with
           | Some i => Some (S i)
           | None => None
           end
  end.

End PyStr.

(** ** [urllib.parse.urlparse]: scheme and netloc

    The handler reads only [scheme] and [netloc] of the parse result, and
    [urlparse] takes both from [urlsplit].  The model follows [urlsplit] of
    CPython 3.11 up to the point where they are known.  The two checks that
    call into [ipaddress] and [unicodedata] are parameters:
    [check_bracketed_netloc] is applied to a netloc holding both brackets and
    [checknetloc] to a non-ASCII netloc; each answers [Some msg] when the
    library raises [ValueError(msg)] and [None] when it accepts. *)

Module Url.

Record ParseResult : Type := mkParseResult {
  scheme : string;
  netloc : string
}.

Definition is_alpha (c : ascii) : bool :=
  let n := nat_of_ascii c in
  ((65 <=? n) && (n <=? 90) || (97 <=? n) && (n <=? 122))%nat.

Definition is_digit (c : ascii) : bool :=
  let n := nat_of_ascii c in ((48 <=? n) && (n <=? 57))%nat.

(** [scheme_chars]: letters, digits, [+], [-] and [.] *)
Definition scheme_char (c : ascii) : bool :=
  is_alpha c || is_digit c
  || Ascii.eqb c "+" || Ascii.eqb c "-" || Ascii.eqb c ".".

(** [_WHATWG_C0_CONTROL_OR_SPACE]: code points 0 to 32 *)
Definition c0_control_or_space (c : ascii) : bool :=
  (nat_of_ascii c <=? 32)%nat.

(** [_UNSAFE_URL_BYTES_TO_REMOVE]: TAB, CR and LF *)
Definition unsafe_url_byte (c : ascii) : bool :=
  let n := nat_of_ascii c in ((n =? 9) || (n =? 13) || (n =? 10))%nat.

Fixpoint lstrip_c0 (s : string) : string :=
  match s with
  | EmptyString => EmptyString
  | String c s' => if c0_control_or_space c then lstrip_c0 s' else s
  end.

Definition netloc_delim (c : ascii) : bool :=
  Ascii.eqb c "/" || Ascii.eqb c "?" || Ascii.eqb c "#".

(** [_splitnetloc(url, 2)] on [rest], the text after the two slashes: the
    netloc ends at the first of [/], [?] and [#]. *)
Definition splitnetloc (rest : string) : string :=
  match PyStr.find_char netloc_delim rest with
  | Some i => PyStr.take i rest
  | None => rest
  end.

Definition isascii (s : string) : bool :=
  PyStr.all_chars (fun c => (nat_of_ascii c <? 128)%nat) s.

Section Urlparse.

Variable check_bracketed_netloc : string -> option string.
Variable checknetloc : string -> option string.

(** The scheme is the text before the first colon when that text starts
    with an ASCII letter and holds scheme characters only. *)
Definition split_scheme (url : string) : string * string :=
  match PyStr.find_char (Ascii.eqb ":") url with
  | Some (S i) =>
      match url with
      | String c _ =>
          if is_alpha c && PyStr.all_chars scheme_char (PyStr.take (S i) url)
          then (PyStr.lower (PyStr.take (S i) url), PyStr.drop (S (S i)) url)
          else (EmptyString, url)
      | EmptyString => (EmptyString, url)
      end
  | _ => (EmptyString, url)
  end.

Definition urlparse (url0 : string) : outcome ParseResult :=
  let url := PyStr.filter_chars (fun c => negb (unsafe_url_byte c))
               (lstrip_c0 url0) in
  let '(scheme, url) := split_scheme url in
  if PyStr.startswith url "//" then
    let netloc := splitnetloc (PyStr.drop 2 url) in
    let lb := PyStr.has_char "[" netloc in
    let rb := PyStr.has_char "]" netloc in
    if (lb && negb rb) || (rb && negb lb) then
      Raises (ValueError "Invalid IPv6 URL")
    else
      match (if lb && rb then check_bracketed_netloc netloc else None) with
      | Some msg => Raises (ValueError msg)
      | None =>
          match (if isascii netloc then None else checknetloc netloc) with
          | Some msg => Raises (ValueError msg)
          | None => Returns (mkParseResult scheme netloc)
          end
      end
  else Returns (mkParseResult scheme EmptyString).

End Urlparse.

End Url.

(** ** The BeautifulSoup tree

    What [BeautifulSoup(html, 'html.parser')] builds: strings, strings of
    the kinds [get_text] leaves out ([Comment] stands for them all), and
    tags with their attribute dictionary and contents.  The soup object is
    the root tag.  A tag object is referred to by its position in the tree,
    the list of child indices from the root. *)

Module Soup.

Inductive node : Type :=
| NavigableString (s : string)
| Comment (s : string)
| Tag (name : string) (attrs : list (string * string)) (contents : list node).

Definition path : Type := list nat.

(** [n] and its descendants in document order, [n] being at [p] *)
Fixpoint walk (p : path) (n : node) {struct n} : list (path * node) :=
  (p, n) ::
  match n with
  | Tag _ _ cs =>
      (fix children (i : nat) (cs : list node) {struct cs}
         : list (path * node) :=
         match cs with
         | [] => []
         | c :: cs' => (walk (p ++ [i]) c ++ children (S i) cs')%list
         end) 0%nat cs
  | _ => []
  end.

(** [root.descendants] *)
Definition descendants (root : node) : list (path * node) :=
  tl (walk [] root).

(** [attrs.get(key)] *)
Fixpoint lookup (attrs : list (string * string)) (key : string) : option string :=
  match attrs with
  | [] => None
  | (k, v) :: attrs' => if String.eqb k key then Some v else lookup attrs' key
  end.

(** [tag[key]] raises [KeyError(key)] when the attribute is missing. *)
Definition getitem (n : node) (key : string) : outcome string :=
  match n with
  | Tag _ attrs _ =>
      match lookup attrs key with
      | Some v => Returns v
      | None => Raises (OtherException ("'" ++ key ++ "'"))
      end
  | _ => Raises (OtherException ("'" ++ key ++ "'"))
  end.

(** [tag.get(key, default)] *)
Definition get (n : node) (key default : string) : string :=
  match n with
  | Tag _ attrs _ =>
      match lookup attrs key with
      | Some v => v
      | None => default
      end
  | _ => default
  end.

Definition matches (name attr : string) (n : node) : bool :=
  match n with
  | Tag nm attrs _ =>
      String.eqb nm name &&
      match lookup attrs attr with
      | Some _ => true
      | None => false
      end
  | _ => false
  end.

(** [root.find_all(name, attr=True)]: the tags called [name] that carry
    [attr], in document order. *)
Definition find_all (name attr : string) (root : node) : list (path * node) :=
  filter (fun pn => matches name attr (snd pn)) (descendants root).

(** The strings [get_text] sees below [n], in document order *)
Fixpoint strings (n : node) : list string :=
  match n with
  | NavigableString s => [s]
  | Comment _ => []
  | Tag _ _ cs => flat_map strings cs
  end.

(** [n.get_text(separator, strip)]: with [strip] every string is stripped
    on its own and the empty ones are dropped before joining. *)
Definition get_text (separator : string) (strip : bool) (n : node) : string :=
  PyStr.join separator
    (if strip
     then filter PyStr.truthy (map PyStr.strip (strings n))
     else strings n).

Fixpoint update_nth {A : Type} (i : nat) (f : A -> A) (l : list A) : list A :=
  match l, i with
  | [], _ => []
  | x :: l', O => f x :: l'
  | x :: l', S i' => x :: update_nth i' f l'
  end.

(** [tag.replace_with(s)] for the tag at [p] in the tree under [root].
    When an ancestor of the tag has been replaced before, the tag sits in
    a subtree that is no longer part of the soup, and the soup is left as
    it is. *)
Fixpoint replace_with (p : path) (s : string) (root : node) {struct p} : node :=
  match p with
  | [] => NavigableString s
  | i :: p' =>
      match root with
      | Tag name attrs cs => Tag name attrs (update_nth i (replace_with p' s) cs)
      | _ => root
      end
  end.

End Soup.

(** ** Python [float]

    A finite binary64 value is the rational it denotes.  Every operation
    computes the exact result and rounds it to 53 significant bits, ties to
    even.  Overflow and subnormal numbers are outside the model: the values
    [estimateTokenCount] computes are 0 or at least 1/4, and bounded by the
    length of a string. *)

Module Float.

Local Open Scope Q_scope.

(** Nearest integer, ties to the even one: [round(x)] of Python 3 *)
Definition round_half_even (x : Q) : Z :=
  let f := Qfloor x in
  match Qcompare (x - inject_Z f) (1 # 2) with
  | Lt => f
  | Gt => (f + 1)%Z
  | Eq => if Z.even f then f else (f + 1)%Z
  end.

(** The integer [e] with [2^e <= x < 2^(e+1)], for [x > 0] *)
Definition ilog2 (x : Q) : Z :=
  let e := (Z.log2 (Qnum x) - Z.log2 (Zpos (Qden x)))%Z in
  if Qle_bool (2 ^ e)%Q x then e else (e - 1)%Z.

(** Rounding to the nearest binary64 value *)
Definition round53 (x : Q) : Q :=
  if Qeq_bool x 0 then 0
  else
    let e := (ilog2 (Qabs x) - 52)%Z in
    Qred (inject_Z (round_half_even (x / 2 ^ e)) * 2 ^ e).

(** [float(n)] *)
Definition of_int (n : Z) : Q := round53 (inject_Z n).

Definition add (x y : Q) : Q := round53 (x + y).

Definition div (x y : Q) : Q := round53 (x / y).

(** [a / b] on two [int]s: the quotient, correctly rounded *)
Definition int_truediv (a b : Z) : Q := round53 (inject_Z a / inject_Z b).

Definition round (x : Q) : Z := round_half_even x.

(** The binary64 format of the Standard Library's IEEE 754 specification,
    to compare with: an integer as a binary64 number, and the rational a
    binary64 number denotes. *)
Definition binary64_of (m e : Z) : spec_float :=
  binary_normalize 53 1024 m e false.

Definition Q_of_binary64 (f : spec_float) : Q :=
  match f with
  | S754_finite s m e =>
      Qred ((if s then - (1) else 1) * inject_Z (Zpos m) * 2 ^ e)
  | _ => 0
  end.

End Float.

(** ** HTTP and JSON values *)

(** A [requests.Response]: the status code, the headers and [response.text] *)
Record Response : Type := mkResponse {
  status_code : Z;
  headers : list (string * string);
  text : string
}.

(** [response.headers.get(key, default)]; header names compare without case. *)
Fixpoint headers_get (hs : list (string * string)) (key default : string) : string :=
  match hs with
  | [] => default
  | (k, v) :: hs' =>
      if String.eqb (PyStr.lower k) (PyStr.lower key) then v
      else headers_get hs' key default
  end.

(** [response.raise_for_status()]: [HTTPError], a [RequestException], for a
    status from 400 to 599.  Its message only reaches the log. *)
Definition raise_for_status (r : Response) : outcome unit :=
  if ((400 <=? status_code r) && (status_code r <? 600))%Z
  then Raises (RequestException "HTTPError")
  else Returns tt.

Inductive json : Type :=
| JString (s : string)
| JNumber (n : Z)
| JObject (fields : list (string * json)).

(** What a Flask view returns: the [jsonify] body and the status code *)
Definition response : Type := (json * Z)%type.

(** ** [app.py] *)

Section App.

(** [requests.get(url, headers=headers, timeout=10)] *)
Variable requests_get : string -> outcome Response.
(** [BeautifulSoup(html, 'html.parser')] *)
Variable html_parser : string -> outcome Soup.node.
(** [urllib.parse.urljoin(base, url)] *)
Variable urljoin : string -> string -> outcome string.
Variable check_bracketed_netloc : string -> option string.
Variable checknetloc : string -> option string.

(** The relative-to-absolute step shared by the four loops *)
Definition resolve (url ref : string) : outcome string :=
  if PyStr.startswith ref "/" then urljoin url ref else Returns ref.

(** One turn of the loop over the links: the string that replaces [link] *)
Definition link_replacement (url : string) (link : Soup.node) : outcome string :=
  href <- Soup.getitem link "href" ;;
  href <- resolve url href ;;
  let link_text := Soup.get_text "" true link in
  if PyStr.truthy link_text
  then Returns (link_text ++ " [" ++ href ++ "]")
  else Returns ("[" ++ href ++ "]").

(** One turn of the loop over the images *)
Definition img_replacement (url : string) (img : Soup.node) : outcome string :=
  src <- Soup.getitem img "src" ;;
  src <- resolve url src ;;
  let alt_text := PyStr.strip (Soup.get img "alt" "") in
  if PyStr.truthy alt_text
  then Returns ("[Image: " ++ alt_text ++ "] [" ++ src ++ "]")
  else Returns ("[Image] [" ++ src ++ "]").

(** [for el in found: el.replace_with(...)].  [found] is the list
    [find_all] returned before the loop started; the soup changes under
    the loop.  The elements come in document order, so when the loop
    reaches one, none of its descendants has been replaced yet and its
    subtree is as [find_all] saw it. *)
Fixpoint replace_each (replacement : Soup.node -> outcome string)
    (found : list (Soup.path * Soup.node)) (soup : Soup.node)
    : outcome Soup.node :=
  match found with
  | [] => Returns soup
  | (p, el) :: found' =>
      s <- replacement el ;;
      replace_each replacement found' (Soup.replace_with p s soup)
  end.

(** Lines 47 to 71: the loop over the links, then the loop over the images
    that are left in the soup. *)
Definition annotate (url : string) (soup : Soup.node) : outcome Soup.node :=
  soup <- replace_each (link_replacement url)
            (Soup.find_all "a" "href" soup) soup ;;
  replace_each (img_replacement url) (Soup.find_all "img" "src" soup) soup.

(** The loops that fill [links] and [images] *)
Fixpoint collect (url attr : string) (found : list (Soup.path * Soup.node))
    : outcome (list string) :=
  match found with
  | [] => Returns []
  | (_, el) :: found' =>
      ref <- Soup.getitem el attr ;;
      ref <- resolve url ref ;;
      rest <- collect url attr found' ;;
      Returns (ref :: rest)
  end.

Definition FetchResult : Type := (option string * list string * list string)%type.

(** The body of the [try] block.  [Document(html, url=url)] only stores
    its arguments, and [doc] is not used afterwards. *)
Definition fetch_body (url : string) : outcome FetchResult :=
  response <- requests_get url ;;
  _ <- raise_for_status response ;;
  let content_type := headers_get (headers response) "Content-Type" "" in
  if negb (PyStr.contains "text/html" (PyStr.lower content_type)) then
    Raises (ValueError ("Expected HTML content but received " ++ content_type
                        ++ " from " ++ url))
  else
    let html := text response in
    let article_html_summary := html in
    if negb (PyStr.truthy article_html_summary) then Returns (None, [], [])
    else
      soup <- html_parser article_html_summary ;;
      soup <- annotate url soup ;;
      let article_text_content := Soup.get_text " " true soup in
      if negb (PyStr.truthy (PyStr.strip article_text_content)) then
        Returns (None, [], [])
      else
        soup_links <- html_parser article_html_summary ;;
        links <- collect url "href" (Soup.find_all "a" "href" soup_links) ;;
        soup_images <- html_parser article_html_summary ;;
        images <- collect url "src" (Soup.find_all "img" "src" soup_images) ;;
        Returns (Some article_text_content, links, images).

(** The [try] block with its three [except] clauses; what none of them
    catches goes through. *)
Definition fetch_webpage_python (url : string) : outcome FetchResult :=
  match fetch_body url with
  | Returns r => Returns r
  | Raises (RequestException _) => Returns (Some "Can't fetch page", [], [])
  | Raises (ValueError msg) => Raises (ValueError msg)
  | Raises (OtherException msg) =>
      Raises (ValueError ("An unknown error occurred while processing " ++ url
                          ++ ": " ++ msg))
  | Raises (BaseException msg) => Raises (BaseException msg)
  end.

Definition estimateTokenCount (text : string) : Z :=
  let charBasedEstimate := Float.int_truediv (Z.of_nat (String.length text)) 4 in
  let wordCount := Z.of_nat (List.length (PyStr.split text)) in
  let wordBasedEstimate := Float.div (Float.of_int wordCount) (3 # 4)%Q in
  Float.round
    (Float.div (Float.add charBasedEstimate wordBasedEstimate) (Float.of_int 2)).

Definition error_body (msg : string) : json := JObject [("error", JString msg)].

(** Lines 141 to 150: the call of the fetcher and what is made of its
    result.  [if not content_html] holds for [None] and for the empty
    string. *)
Definition respond (url : string) : outcome response :=
  r <- fetch_webpage_python url ;;
  let '(content_html, links, images) := r in
  match content_html with
  | None | Some EmptyString =>
      Returns (error_body "Could not fetch or parse content from the URL", 500%Z)
  | Some content_html =>
      Returns (JObject [("url_requested", JString url);
                        ("content_html", JString content_html);
                        ("length", JNumber (estimateTokenCount content_html))],
               200%Z)
  end.

(** The view function; [arg] is [request.args.get('url')]. *)
Definition get_readable_page (arg : option string) : outcome response :=
  match arg with
  | None | Some EmptyString =>
      Returns (error_body "URL parameter is required", 400%Z)
  | Some url =>
      parsed_url <- Url.urlparse check_bracketed_netloc checknetloc url ;;
      if negb (PyStr.truthy (Url.scheme parsed_url))
         || negb (PyStr.truthy (Url.netloc parsed_url)) then
        if negb (PyStr.truthy (Url.scheme parsed_url))
           && PyStr.truthy (Url.netloc parsed_url) then
          respond ("http://" ++ url)
        else
          Returns (error_body "Invalid URL format. Please provide a full URL (e.g., http://example.com)", 400%Z)
      else respond url
  end.

End App.

(** ** Vocabulary of the statements *)

Definition url_required : response :=
  (error_body "URL parameter is required", 400%Z).

Definition invalid_url : response :=
  (error_body "Invalid URL format. Please provide a full URL (e.g., http://example.com)", 400%Z).

Definition fetch_failed : response :=
  (error_body "Could not fetch or parse content from the URL", 500%Z).

(** The 200 response of line 146 *)
Definition page (url content_html : string) (length : Z) : response :=
  (JObject [("url_requested", JString url);
            ("content_html", JString content_html);
            ("length", JNumber length)], 200%Z).

(** A host-only string: letters, digits, dots and hyphens, at least one *)
Definition host_char (c : ascii) : bool :=
  Url.is_alpha c || Url.is_digit c || Ascii.eqb c "." || Ascii.eqb c "-".

Definition host_only (s : string) : bool :=
  PyStr.truthy s && PyStr.all_chars host_char s.

(** A status that [raise_for_status] lets through *)
Definition status_ok (r : Response) : Prop :=
  (status_code r < 400 \/ 600 <= status_code r)%Z.

(** The [Content-Type] test of line 23 *)
Definition declares_html (r : Response) : bool :=
  PyStr.contains "text/html"
    (PyStr.lower (headers_get (headers r) "Content-Type" "")).

(** The node at a position of the tree *)
Fixpoint node_at (p : Soup.path) (n : Soup.node) {struct p} : option Soup.node :=
  match p with
  | [] => Some n
  | i :: p' =>
      match n with
      | Soup.Tag _ _ cs =>
          match nth_error cs i with
          | Some c => node_at p' c
          | None => None
          end
      | _ => None
      end
  end.

(** [p] is the position of [q] or of an ancestor of it *)
Definition is_prefix (p q : Soup.path) : Prop :=
  exists d, q = (p ++ d)%list.

(** [q] lies strictly below [p] *)
Definition below (p q : Soup.path) : Prop :=
  exists d, d <> [] /\ q = (p ++ d)%list.

(** The children [cs] of the tag at [p], from the [i]th on, with their
    descendants: the inner loop of [Soup.walk] *)
Fixpoint walk_children (p : Soup.path) (i : nat) (cs : list Soup.node)
    : list (Soup.path * Soup.node) :=
  match cs with
  | [] => []
  | c :: cs' => (Soup.walk (p ++ [i]) c ++ walk_children p (S i) cs')%list
  end.

(** Document order: no element comes after one of its descendants, and no
    element comes twice. *)
Definition document_order (l : list (Soup.path * Soup.node)) : Prop :=
  ForallOrdPairs (fun a b => ~ is_prefix (fst b) (fst a)) l.

(** An element of [found] that is not inside another one *)
Definition outermost (found : list (Soup.path * Soup.node)) (p : Soup.path) : Prop :=
  forall q el, In (q, el) found -> ~ below q p.

(** [resolved] is what the collector makes of the attribute [attr] of the
    element [el]: [urljoin(url, ref)] for a value that starts with a slash,
    the value itself otherwise. *)
Definition resolves_to (urljoin : string -> string -> outcome string)
    (url attr : string) (el : Soup.path * Soup.node) (resolved : string) : Prop :=
  exists ref, Soup.getitem (snd el) attr = Returns ref /\
    if PyStr.startswith ref "/" then urljoin url ref = Returns resolved
    else resolved = ref.

(** The inner text of a tag, trimmed: all its strings put together, then
    stripped at both ends. *)
Definition trimmed_inner_text (n : Soup.node) : string :=
  PyStr.strip (Soup.get_text "" false n).

(** The number of whitespace-separated words: the characters that are not
    whitespace and stand first or after a whitespace character.
    [after_space] tells what came before. *)
Fixpoint word_starts (after_space : bool) (s : string) : nat :=
  match s with
  | EmptyString => 0
  | String c s' =>
      if PyStr.isspace c then word_starts true s'
      else (if after_space then 1 else 0) + word_starts false s'
  end.

(** The float computation of [estimateTokenCount] on a text of [L]
    characters and [W] words *)
Definition float_estimate (L W : Z) : Q :=
  Float.div
    (Float.add (Float.int_truediv L 4) (Float.div (Float.of_int W) (3 # 4)%Q))
    (Float.of_int 2).

(** The same with the IEEE 754 operations of the Standard Library *)
Definition binary64_estimate (L W : Z) : spec_float :=
  SFdiv 53 1024
    (SFadd 53 1024
       (SFdiv 53 1024 (Float.binary64_of L 0) (Float.binary64_of 4 0))
       (SFdiv 53 1024 (Float.binary64_of W 0) (Float.binary64_of 3 (-2))))
    (Float.binary64_of 2 0).

(** The same over the rationals, with no rounding in between *)
Definition exact_estimate (L W : Z) : Q :=
  ((inject_Z L / 4 + inject_Z W / (3 # 4)) / 2)%Q.

Section Vocabulary.

Variable check_bracketed_netloc : string -> option string.
Variable checknetloc : string -> option string.

(** A URL with a scheme and a host *)
Definition is_absolute (u : string) : bool :=
  match Url.urlparse check_bracketed_netloc checknetloc u with
  | Returns p => PyStr.truthy (Url.scheme p) && PyStr.truthy (Url.netloc p)
  | Raises _ => false
  end.

(** The handler accepts the parameter [url] and goes on with [u]: [url]
    itself when it has a scheme and a netloc, [url] behind [http://] when it
    has a netloc and no scheme. *)
Definition fetched_as (url u : string) : Prop :=
  exists p, Url.urlparse check_bracketed_netloc checknetloc url = Returns p /\
    Url.netloc p <> EmptyString /\
    ((Url.scheme p <> EmptyString /\ u = url) \/
     (Url.scheme p = EmptyString /\ u = "http://" ++ url)).

End Vocabulary.

(** The soup with every tag called [name] that carries [attr] replaced by
    the string [g] makes of it, the tags inside a replaced one going away
    with it: the replacement loop as one pass over the tree. *)
Fixpoint substitute (name attr : string) (g : Soup.node -> string)
    (n : Soup.node) : Soup.node :=
  match n with
  | Soup.Tag nm attrs cs =>
      if Soup.matches name attr n then Soup.NavigableString (g n)
      else Soup.Tag nm attrs (map (substitute name attr g) cs)
  | _ => n
  end.

(** The same below the root, which [find_all] does not look at *)
Definition substitute_in (name attr : string) (g : Soup.node -> string)
    (root : Soup.node) : Soup.node :=
  match root with
  | Soup.Tag nm attrs cs => Soup.Tag nm attrs (map (substitute name attr g) cs)
  | _ => root
  end.

(** The string an outcome returns, if it returns *)
Definition returned (o : outcome string) : string :=
  match o with
  | Returns s => s
  | Raises _ => EmptyString
  end.

(** [h] applied to the subtree at [p] *)
Fixpoint update_at (p : Soup.path) (h : Soup.node -> Soup.node) (n : Soup.node)
    {struct p} : Soup.node :=
  match p with
  | [] => h n
  | i :: p' =>
      match n with
      | Soup.Tag nm attrs cs => Soup.Tag nm attrs (Soup.update_nth i (update_at p' h) cs)
      | _ => n
      end
  end.

(** The replacements of a loop that raises nowhere, one after the other *)
Definition replace_all (g : Soup.node -> string)
    (found : list (Soup.path * Soup.node)) (root : Soup.node) : Soup.node :=
  fold_left (fun soup el => Soup.replace_with (fst el) (g (snd el)) soup) found root.

Definition shift (p : Soup.path) (el : Soup.path * Soup.node) : Soup.path * Soup.node :=
  ((p ++ fst el)%list, snd el).

(** A string that does not start with whitespace *)
Definition head_clean (s : string) : bool :=
  match s with
  | EmptyString => true
  | String c _ => negb (PyStr.isspace c)
  end.

(** ** Sample worlds, for the closed statements *)

Module Sample.

Import Soup.

Definition no_check (_ : string) : option string := None.

(** The base up to the end of its netloc: the scheme, [://] and what
    [_splitnetloc] takes after it *)
Definition origin (base : string) : string :=
  match PyStr.find_char (Ascii.eqb ":") base with
  | Some i => PyStr.take (i + 3) base ++ Url.splitnetloc (PyStr.drop (i + 3) base)
  | None => base
  end.

(** [urljoin] where the examples use it: a base written [scheme://...] and
    a reference that is an absolute path without dot segments.  The path
    replaces what follows the netloc of the base. *)
Definition urljoin (base ref : string) : outcome string :=
  Returns (origin base ++ ref).

Definition serve (content_type body : string) (_ : string) : outcome Response :=
  Returns (mkResponse 200 [("Content-Type", content_type)] body).

Definition refuse (_ : string) : outcome Response :=
  Raises (RequestException "Connection refused").

Definition parses_to (soup : node) (_ : string) : outcome node := Returns soup.

Definition document (contents : list node) : node := Tag "[document]" [] contents.

(** [<html><body><p>Hello <a href='/w'>World</a></p></body></html>] *)
Definition hello_html : string :=
  "<html><body><p>Hello <a href='/w'>World</a></p></body></html>".

Definition hello : node :=
  document [Tag "html" [] [Tag "body" [] [Tag "p" []
    [NavigableString "Hello "; Tag "a" [("href", "/w")] [NavigableString "World"]]]]].

(** [<html></html>] *)
Definition empty_page : node := document [Tag "html" [] []].

(** [<a href="page.html">next</a><img src="pic.png">] *)
Definition relative_refs : node :=
  document [Tag "a" [("href", "page.html")] [NavigableString "next"];
            Tag "img" [("src", "pic.png")] []].

(** [<a href="/x"><b>Hello</b> world</a>] *)
Definition two_strings : node :=
  Tag "a" [("href", "/x")] [Tag "b" [] [NavigableString "Hello"]; NavigableString " world"].

(** [<a href="/x"><img src="/y.png" alt="cap"></a>] *)
Definition linked_image : node :=
  document [Tag "a" [("href", "/x")] [Tag "img" [("src", "/y.png"); ("alt", "cap")] []]].

(** [<p>See</p><img src="/y.png" alt=" cap "><img src="z.png">] *)
Definition two_images : node :=
  document [Tag "p" [] [NavigableString "See"];
            Tag "img" [("src", "/y.png"); ("alt", " cap ")] [];
            Tag "img" [("src", "z.png")] []].

(** The handler in a world that serves [soup] as an HTML page *)
Definition serving (soup : node) : option string -> outcome response :=
  get_readable_page (serve "text/html; charset=utf-8" hello_html)
    (parses_to soup) urljoin no_check no_check.

(** The fetcher in the same world *)
Definition fetching (soup : node) : string -> outcome FetchResult :=
  fetch_webpage_python (serve "text/html; charset=utf-8" hello_html)
    (parses_to soup) urljoin.

(** The handler in a world where every GET is refused *)
Definition offline : option string -> outcome response :=
  get_readable_page refuse (parses_to hello) urljoin no_check no_check.

(** The handler in a world that serves a JSON document *)
Definition serving_json : option string -> outcome response :=
  get_readable_page (serve "application/json" "{}")
    (parses_to hello) urljoin no_check no_check.

End Sample.

(** * Properties *)

(** ** Characters and strings *)

Lemma host_char_not_c0 (c : ascii) :
  host_char c = true -> Url.c0_control_or_space c = false.
Proof. destruct c as [[] [] [] [] [] [] [] []]; vm_compute; congruence. Qed.

Lemma host_char_not_unsafe (c : ascii) :
  host_char c = true -> Url.unsafe_url_byte c = false.
Proof. destruct c as [[] [] [] [] [] [] [] []]; vm_compute; congruence. Qed.

Lemma host_char_not_colon (c : ascii) :
  host_char c = true -> Ascii.eqb ":" c = false.
Proof. destruct c as [[] [] [] [] [] [] [] []]; vm_compute; congruence. Qed.

Lemma host_char_not_slash (c : ascii) :
  host_char c = true -> c <> "/"%char.
Proof. intros H ->. vm_compute in H. discriminate. Qed.

Lemma filter_chars_all (f : ascii -> bool) (s : string) :
  PyStr.all_chars f s = true -> PyStr.filter_chars f s = s.
Proof.
  induction s as [|c s IH]; simpl; [reflexivity|].
  intros H. apply andb_true_iff in H as [Hc Hs].
  rewrite Hc, IH by assumption. reflexivity.
Qed.

Lemma all_chars_impl (f g : ascii -> bool) (s : string) :
  (forall c, f c = true -> g c = true) ->
  PyStr.all_chars f s = true -> PyStr.all_chars g s = true.
Proof.
  intros Hfg. induction s as [|c s IH]; simpl; [reflexivity|].
  intros H. apply andb_true_iff in H as [Hc Hs].
  rewrite (Hfg _ Hc), IH by assumption. reflexivity.
Qed.

Lemma find_char_none (f : ascii -> bool) (s : string) :
  PyStr.all_chars (fun c => negb (f c)) s = true -> PyStr.find_char f s = None.
Proof.
  induction s as [|c s IH]; simpl; [reflexivity|].
  intros H. apply andb_true_iff in H as [Hc Hs].
  apply negb_true_iff in Hc. rewrite Hc, IH by assumption. reflexivity.
Qed.

Lemma truthy_true (s : string) : PyStr.truthy s = true <-> s <> EmptyString.
Proof. destruct s; simpl; split; congruence. Qed.

Lemma truthy_false (s : string) : PyStr.truthy s = false <-> s = EmptyString.
Proof. destruct s; simpl; split; congruence. Qed.

Lemma host_char_not_delim (c : ascii) :
  host_char c = true -> Url.netloc_delim c = false.
Proof. destruct c as [[] [] [] [] [] [] [] []]; vm_compute; congruence. Qed.

Lemma host_char_not_bracket (c : ascii) :
  host_char c = true -> Ascii.eqb "[" c = false /\ Ascii.eqb "]" c = false.
Proof. destruct c as [[] [] [] [] [] [] [] []]; vm_compute; split; congruence. Qed.

Lemma host_char_ascii (c : ascii) :
  host_char c = true -> (nat_of_ascii c <? 128)%nat = true.
Proof. destruct c as [[] [] [] [] [] [] [] []]; vm_compute; congruence. Qed.

Lemma filter_chars_app (f : ascii -> bool) (s t : string) :
  PyStr.filter_chars f (s ++ t) = PyStr.filter_chars f s ++ PyStr.filter_chars f t.
Proof.
  induction s as [|c s IH]; simpl; [reflexivity|].
  destruct (f c); simpl; rewrite IH; reflexivity.
Qed.

Lemma has_char_none (c : ascii) (s : string) :
  PyStr.all_chars (fun d => negb (Ascii.eqb c d)) s = true ->
  PyStr.has_char c s = false.
Proof.
  induction s as [|d s IH]; simpl; [reflexivity|].
  intros H. apply andb_true_iff in H as [Hd Hs].
  apply negb_true_iff in Hd. rewrite Hd, IH by assumption. reflexivity.
Qed.

(** The netloc of [host/...] is [host]. *)
Lemma splitnetloc_host (host rest : string) :
  PyStr.all_chars host_char host = true ->
  Url.splitnetloc (host ++ String "/" rest) = host.
Proof.
  intros H. unfold Url.splitnetloc.
  assert (E : PyStr.find_char Url.netloc_delim (host ++ String "/" rest)
              = Some (String.length host) /\
              PyStr.take (String.length host) (host ++ String "/" rest) = host).
  { induction host as [|c host IH]; simpl; [split; reflexivity|].
    simpl in H. apply andb_true_iff in H as [Hc Hs].
    rewrite (host_char_not_delim c Hc).
    destruct (IH Hs) as [E1 E2]. rewrite E1, E2. split; reflexivity. }
  destruct E as [E1 E2]. rewrite E1. exact E2.
Qed.

(** ** The URL check of the handler *)

Section Endpoint.

Variable requests_get : string -> outcome Response.
Variable html_parser : string -> outcome Soup.node.
Variable urljoin : string -> string -> outcome string.
Variable check_bracketed_netloc : string -> option string.
Variable checknetloc : string -> option string.

Notation urlparse := (Url.urlparse check_bracketed_netloc checknetloc).
Notation fetch := (fetch_webpage_python requests_get html_parser urljoin).
Notation body := (fetch_body requests_get html_parser urljoin).
Notation reply := (respond requests_get html_parser urljoin).
Notation handler :=
  (get_readable_page requests_get html_parser urljoin
     check_bracketed_netloc checknetloc).

(** A host-only string has no colon and no leading slashes: [urlparse]
    finds neither a scheme nor a netloc in it. *)
Lemma urlparse_host_only (url : string) :
  host_only url = true ->
  urlparse url = Returns (Url.mkParseResult EmptyString EmptyString).
Proof.
  unfold host_only. intros H. apply andb_true_iff in H as [Hne Hall].
  destruct url as [|c s]; [discriminate|].
  pose proof Hall as Hcs. simpl in Hcs. apply andb_true_iff in Hcs as [Hc Hs].
  unfold Url.urlparse.
  assert (Hstrip : Url.lstrip_c0 (String c s) = String c s).
  { simpl. rewrite (host_char_not_c0 c Hc). reflexivity. }
  rewrite Hstrip.
  rewrite filter_chars_all.
  2:{ apply all_chars_impl with (f := host_char); [|exact Hall].
      intros d Hd. rewrite (host_char_not_unsafe d Hd). reflexivity. }
  assert (Hsch : Url.split_scheme (String c s) = (EmptyString, String c s)).
  { unfold Url.split_scheme. rewrite find_char_none; [reflexivity|].
    apply all_chars_impl with (f := host_char); [|exact Hall].
    intros d Hd. rewrite (host_char_not_colon d Hd). reflexivity. }
  rewrite Hsch.
  assert (Hpre : PyStr.startswith (String c s) "//" = false).
  { unfold PyStr.startswith. cbn [String.prefix].
    destruct (ascii_dec "/" c) as [E|E]; [|reflexivity].
    exfalso. apply (host_char_not_slash c Hc). symmetry. exact E. }
  rewrite Hpre. reflexivity.
Qed.

(** The protocol-relative form [//host/path] parses with no scheme and with
    [host] as its netloc. *)
Lemma urlparse_protocol_relative (host path : string) :
  host_only host = true ->
  urlparse ("//" ++ host ++ "/" ++ path)
    = Returns (Url.mkParseResult EmptyString host).
Proof.
  unfold host_only. intros H. apply andb_true_iff in H as [Hne Hall].
  unfold Url.urlparse.
  change (Url.lstrip_c0 ("//" ++ host ++ "/" ++ path))
    with ("//" ++ host ++ "/" ++ path).
  assert (Hf : PyStr.filter_chars (fun c => negb (Url.unsafe_url_byte c))
                 ("//" ++ host ++ "/" ++ path)
               = "//" ++ host ++
                 String "/" (PyStr.filter_chars (fun c => negb (Url.unsafe_url_byte c)) path)).
  { change ("//" ++ host ++ "/" ++ path)
      with (String "/" (String "/" (host ++ String "/" path))).
    cbn [PyStr.filter_chars]. change (negb (Url.unsafe_url_byte "/")) with true.
    cbn iota. rewrite filter_chars_app. cbn [PyStr.filter_chars].
    change (negb (Url.unsafe_url_byte "/")) with true. cbn iota.
    rewrite filter_chars_all; [reflexivity|].
    apply all_chars_impl with (f := host_char); [|exact Hall].
    intros d Hd. rewrite (host_char_not_unsafe d Hd). reflexivity. }
  rewrite Hf. clear Hf.
  set (rest := PyStr.filter_chars _ path).
  set (url := "//" ++ host ++ String "/" rest).
  assert (Hsch : Url.split_scheme url = (EmptyString, url)).
  { unfold Url.split_scheme.
    destruct (PyStr.find_char (Ascii.eqb ":") url) as [[|i]|]; reflexivity. }
  rewrite Hsch. cbv beta iota zeta.
  assert (Hpre : PyStr.startswith url "//" = true).
  { unfold PyStr.startswith, url. simpl.
    destruct (host ++ String "/" rest); reflexivity. }
  rewrite Hpre.
  change (PyStr.drop 2 url) with (host ++ String "/" rest).
  rewrite (splitnetloc_host host rest Hall).
  rewrite !has_char_none.
  - simpl.
    assert (Ha : Url.isascii host = true).
    { apply all_chars_impl with (f := host_char); [|exact Hall].
      exact host_char_ascii. }
    rewrite Ha. reflexivity.
  - apply all_chars_impl with (f := host_char); [|exact Hall].
    intros d Hd. destruct (host_char_not_bracket d Hd) as [_ E]. rewrite E. reflexivity.
  - apply all_chars_impl with (f := host_char); [|exact Hall].
    intros d Hd. destruct (host_char_not_bracket d Hd) as [E _]. rewrite E. reflexivity.
Qed.

(** A parameter whose parse has no netloc is turned down, whatever its
    scheme. *)
Lemma handler_no_netloc (url : string) (p : Url.ParseResult) :
  url <> EmptyString ->
  urlparse url = Returns p ->
  Url.netloc p = EmptyString ->
  handler (Some url) = Returns invalid_url.
Proof.
  intros Hne Hp Hn. destruct url as [|c s]; [congruence|].
  unfold get_readable_page. rewrite Hp. simpl. rewrite Hn. simpl.
  rewrite orb_true_r, andb_false_r. reflexivity.
Qed.

(** An accepted parameter leads to the fetch of the URL it is accepted as. *)
Lemma handler_fetched_as (url u : string) :
  fetched_as check_bracketed_netloc checknetloc url u ->
  handler (Some url) = reply u.
Proof.
  intros (p & Hp & Hn & Hcase).
  destruct url as [|c s].
  - exfalso. apply Hn. vm_compute in Hp. inversion Hp. reflexivity.
  - unfold get_readable_page. rewrite Hp. simpl.
    apply truthy_true in Hn. rewrite Hn. simpl.
    destruct Hcase as [[Hs ->]|[Hs ->]].
    + apply truthy_true in Hs. rewrite Hs. reflexivity.
    + rewrite Hs. reflexivity.
Qed.

(** The call of the fetcher ends in a 500, a 200 or an exception. *)
Lemma reply_status (u : string) (r : response) :
  reply u = Returns r -> snd r = 500%Z \/ snd r = 200%Z.
Proof.
  unfold respond. destruct (fetch u) as [[[c l] i]|e]; simpl; [|discriminate].
  destruct c as [[|a s]|]; intros H; inversion H; simpl; auto.
Qed.

(** C9.  A [url] parameter that is present and empty gets 400 with
    "URL parameter is required", the response of the absent parameter, and
    not the invalid-format message. *)
Theorem empty_url_parameter_is_required :
  handler (Some EmptyString) = Returns url_required /\
  handler (Some EmptyString) = handler None /\
  handler (Some EmptyString) <> Returns invalid_url.
Proof.
  repeat split. discriminate.
Qed.

(** C10.  A parameter that parses with an empty scheme and a non-empty
    netloc, the protocol-relative form, gets [http://] put in front as it
    is: the fetcher is called with that string, and the answer is not the
    invalid-URL one. *)
Theorem protocol_relative_is_prefixed (url : string) (p : Url.ParseResult) :
  urlparse url = Returns p ->
  Url.scheme p = EmptyString ->
  Url.netloc p <> EmptyString ->
  handler (Some url) =
    (r <- fetch ("http://" ++ url) ;;
     let '(content_html, _, _) := r in
     match content_html with
     | None | Some EmptyString => Returns fetch_failed
     | Some content_html =>
         Returns (page ("http://" ++ url) content_html
                    (estimateTokenCount content_html))
     end) /\
  handler (Some url) <> Returns invalid_url.
Proof.
  intros Hp Hs Hn.
  assert (H : handler (Some url) = reply ("http://" ++ url)).
  { apply handler_fetched_as. exists p. auto. }
  split.
  - rewrite H. reflexivity.
  - rewrite H. intros E. apply reply_status in E. simpl in E. lia.
Qed.

(** C2, what the code does.  A host-only string such as [example.com]
    parses with neither scheme nor netloc, and the handler answers 400 with
    the invalid-format message; nothing is put in front of it.  The branch
    that puts [http://] in front is not reached. *)
Theorem host_only_is_rejected (url : string) :
  host_only url = true ->
  urlparse url = Returns (Url.mkParseResult EmptyString EmptyString) /\
  handler (Some url) = Returns invalid_url.
Proof.
  intros H. pose proof (urlparse_host_only url H) as Hp.
  split; [exact Hp|].
  apply handler_no_netloc with (p := Url.mkParseResult EmptyString EmptyString).
  - unfold host_only in H. apply andb_true_iff in H as [H _].
    apply truthy_true. exact H.
  - exact Hp.
  - reflexivity.
Qed.

(** ** The fetch and its failures *)

Lemma raise_for_status_ok (r : Response) :
  status_ok r -> raise_for_status r = Returns tt.
Proof.
  unfold status_ok, raise_for_status. intros H.
  destruct (400 <=? status_code r)%Z eqn:E1;
    destruct (status_code r <? 600)%Z eqn:E2; simpl; try reflexivity.
  apply Z.leb_le in E1. apply Z.ltb_lt in E2. lia.
Qed.

Lemma raise_for_status_error (r : Response) :
  (400 <= status_code r < 600)%Z ->
  raise_for_status r = Raises (RequestException "HTTPError").
Proof.
  unfold raise_for_status. intros [H1 H2].
  apply Z.leb_le in H1. apply Z.ltb_lt in H2. rewrite H1, H2. reflexivity.
Qed.

(** The first [except] clause: a failed GET or an error status makes the
    fetcher return its fixed text. *)
Lemma fetch_request_exception (u : string) :
  (exists msg, requests_get u = Raises (RequestException msg)) \/
  (exists r, requests_get u = Returns r /\ (400 <= status_code r < 600)%Z) ->
  fetch u = Returns (Some "Can't fetch page", [], []).
Proof.
  intros [[msg H]|[r [H Hst]]]; unfold fetch_webpage_python, fetch_body;
    rewrite H; simpl; [reflexivity|].
  rewrite (raise_for_status_error r Hst). reflexivity.
Qed.

(** C1, what the code does.  When the GET fails at the transport level or
    comes back with a 4xx or 5xx status, the fetcher returns the text
    "Can't fetch page", which is a true value for the handler: the answer
    is a 200 page with that text and its estimate, 4. *)
Theorem fetch_failure_is_served_as_page (url u : string) :
  fetched_as check_bracketed_netloc checknetloc url u ->
  (exists msg, requests_get u = Raises (RequestException msg)) \/
  (exists r, requests_get u = Returns r /\ (400 <= status_code r < 600)%Z) ->
  handler (Some url) = Returns (page u "Can't fetch page" 4).
Proof.
  intros Hacc Hfail. rewrite (handler_fetched_as url u Hacc).
  unfold respond. rewrite (fetch_request_exception u Hfail). reflexivity.
Qed.

(** C3, as the code has it.  When the GET succeeds and the [Content-Type]
    does not hold [text/html], the fetcher raises [ValueError] with the
    type and the URL, and the handler, which has no [try], lets it out: no
    JSON body is returned. *)
Theorem non_html_raises_value_error (url u : string) (r : Response) :
  fetched_as check_bracketed_netloc checknetloc url u ->
  requests_get u = Returns r ->
  status_ok r ->
  declares_html r = false ->
  handler (Some url) =
    Raises (ValueError ("Expected HTML content but received "
                        ++ headers_get (headers r) "Content-Type" ""
                        ++ " from " ++ u)).
Proof.
  intros Hacc Hget Hst Hct. rewrite (handler_fetched_as url u Hacc).
  unfold respond, fetch_webpage_python, fetch_body.
  rewrite Hget. simpl. rewrite (raise_for_status_ok r Hst). simpl.
  unfold declares_html in Hct. rewrite Hct. reflexivity.
Qed.

(** C8.  When the page comes back as HTML and the text extracted from it is
    empty or only whitespace, as for [<html></html>], the answer is 500 with
    "Could not fetch or parse content from the URL".  An empty body ends the
    same way. *)
Theorem empty_text_is_fetch_failed (url u : string) (r : Response) :
  fetched_as check_bracketed_netloc checknetloc url u ->
  requests_get u = Returns r ->
  status_ok r ->
  declares_html r = true ->
  (text r = EmptyString \/
   exists soup soup',
     html_parser (text r) = Returns soup /\
     annotate urljoin u soup = Returns soup' /\
     PyStr.strip (Soup.get_text " " true soup') = EmptyString) ->
  handler (Some url) = Returns fetch_failed.
Proof.
  intros Hacc Hget Hst Hct Hempty. rewrite (handler_fetched_as url u Hacc).
  unfold respond, fetch_webpage_python, fetch_body.
  rewrite Hget. simpl. rewrite (raise_for_status_ok r Hst). simpl.
  unfold declares_html in Hct. rewrite Hct. simpl.
  destruct Hempty as [E|(soup & soup' & Hparse & Hann & Hstrip)].
  - rewrite E. reflexivity.
  - destruct (PyStr.truthy (text r)); simpl; [|reflexivity].
    rewrite Hparse. simpl. rewrite Hann. simpl. rewrite Hstrip. reflexivity.
Qed.

End Endpoint.

Local Open Scope list_scope.

(** ** The tree *)

Lemma node_forall_ind (P : Soup.node -> Prop) :
  (forall s, P (Soup.NavigableString s)) ->
  (forall s, P (Soup.Comment s)) ->
  (forall name attrs cs, Forall P cs -> P (Soup.Tag name attrs cs)) ->
  forall n, P n.
Proof.
  intros Hs Hc Ht.
  fix IH 1. intros [s|s|name attrs cs].
  - apply Hs.
  - apply Hc.
  - apply Ht. induction cs as [|c cs IHcs]; constructor; [apply IH | exact IHcs].
Qed.

Lemma walk_tag (p : Soup.path) (name : string) (attrs : list (string * string))
    (cs : list Soup.node) :
  Soup.walk p (Soup.Tag name attrs cs)
    = (p, Soup.Tag name attrs cs) :: walk_children p 0 cs.
Proof.
  simpl. f_equal. generalize 0%nat.
  induction cs as [|c cs IH]; intros i; simpl; [reflexivity|].
  rewrite IH. reflexivity.
Qed.

Lemma is_prefix_refl (p : Soup.path) : is_prefix p p.
Proof. exists []. rewrite app_nil_r. reflexivity. Qed.

Lemma is_prefix_cons (i j : nat) (p q : Soup.path) :
  is_prefix (i :: p) (j :: q) <-> i = j /\ is_prefix p q.
Proof.
  split.
  - intros [d H]. simpl in H. inversion H. split; [reflexivity|]. exists d. reflexivity.
  - intros [-> [d ->]]. exists d. reflexivity.
Qed.

Lemma is_prefix_app (p q r : Soup.path) :
  is_prefix (p ++ q) (p ++ r) <-> is_prefix q r.
Proof.
  split.
  - intros [d H]. rewrite <- app_assoc in H. apply app_inv_head in H.
    exists d. exact H.
  - intros [d ->]. exists d. rewrite app_assoc. reflexivity.
Qed.

(** Where [walk] finds a node, the node is. *)
Lemma walk_node_at (n : Soup.node) :
  forall p q m, In (q, m) (Soup.walk p n) ->
    exists d, q = p ++ d /\ node_at d n = Some m.
Proof.
  induction n as [s|s|name attrs cs IH] using node_forall_ind; intros p q m Hin.
  - destruct Hin as [E|[]]. inversion E. exists []. rewrite app_nil_r. auto.
  - destruct Hin as [E|[]]. inversion E. exists []. rewrite app_nil_r. auto.
  - rewrite walk_tag in Hin. destruct Hin as [E|Hin].
    + inversion E. exists []. rewrite app_nil_r. auto.
    + assert (Hch : forall i, In (q, m) (walk_children p i cs) ->
                exists k c d, nth_error cs k = Some c /\
                  q = p ++ (i + k)%nat :: d /\ node_at d c = Some m).
      { clear Hin. induction IH as [|c cs Hc _ IHcs]; intros i Hin; [destruct Hin|].
        simpl in Hin. apply in_app_or in Hin as [Hin|Hin].
        - destruct (Hc _ _ _ Hin) as (d & -> & Hd).
          exists 0%nat, c, d. rewrite Nat.add_0_r, <- app_assoc. auto.
        - destruct (IHcs _ Hin) as (k & c' & d & Hk & -> & Hd).
          exists (S k), c', d. rewrite Nat.add_succ_r. auto. }
      destruct (Hch 0%nat Hin) as (k & c & d & Hk & -> & Hd).
      exists (k :: d). split; [reflexivity|]. simpl. rewrite Hk. exact Hd.
Qed.

Lemma walk_children_paths (p : Soup.path) (cs : list Soup.node) :
  forall i q m, In (q, m) (walk_children p i cs) ->
    exists k d, (i <= k)%nat /\ q = p ++ k :: d.
Proof.
  induction cs as [|c cs IH]; intros i q m Hin; [destruct Hin|].
  simpl in Hin. apply in_app_or in Hin as [Hin|Hin].
  - destruct (walk_node_at c _ _ _ Hin) as (d & -> & _).
    exists i, d. rewrite <- app_assoc. auto.
  - destruct (IH _ _ _ Hin) as (k & d & Hk & ->). exists k, d. split; [lia|reflexivity].
Qed.

Lemma ForallOrdPairs_app {A : Type} (R : A -> A -> Prop) (l1 l2 : list A) :
  ForallOrdPairs R l1 -> ForallOrdPairs R l2 ->
  (forall a b, In a l1 -> In b l2 -> R a b) ->
  ForallOrdPairs R (l1 ++ l2).
Proof.
  intros H1 H2 H12. induction H1 as [|a l Ha Hl IH]; simpl; [exact H2|].
  constructor.
  - apply Forall_app. split; [exact Ha|].
    apply Forall_forall. intros b Hb. apply H12; [left; reflexivity | exact Hb].
  - apply IH. intros x y Hx Hy. apply H12; [right; exact Hx | exact Hy].
Qed.

Lemma ForallOrdPairs_filter {A : Type} (R : A -> A -> Prop) (f : A -> bool) (l : list A) :
  ForallOrdPairs R l -> ForallOrdPairs R (filter f l).
Proof.
  induction 1 as [|a l Ha Hl IH]; simpl; [constructor|].
  destruct (f a); [|exact IH]. constructor; [|exact IH].
  apply Forall_forall. intros b Hb. apply filter_In in Hb as [Hb _].
  rewrite Forall_forall in Ha. apply Ha. exact Hb.
Qed.

(** [walk] lists the nodes in document order. *)
Lemma walk_document_order (n : Soup.node) :
  forall p, document_order (Soup.walk p n).
Proof.
  unfold document_order.
  induction n as [s|s|name attrs cs IH] using node_forall_ind; intros p.
  - repeat constructor.
  - repeat constructor.
  - rewrite walk_tag. constructor.
    + apply Forall_forall. intros [q m] Hin. simpl.
      destruct (walk_children_paths _ _ _ _ _ Hin) as (k & d & _ & ->).
      intros [e He]. rewrite <- app_assoc in He.
      rewrite <- (app_nil_r p) in He at 1. apply app_inv_head in He. discriminate.
    + generalize 0%nat. induction IH as [|c cs Hc _ IHcs]; intros i; simpl; [constructor|].
      apply ForallOrdPairs_app; [apply Hc | apply IHcs |].
      intros [q1 m1] [q2 m2] H1 H2. simpl.
      destruct (walk_node_at c _ _ _ H1) as (d1 & -> & _).
      destruct (walk_children_paths _ _ _ _ _ H2) as (k & d2 & Hk & ->).
      rewrite <- app_assoc. rewrite is_prefix_app. simpl.
      rewrite is_prefix_cons. lia.
Qed.

Lemma find_all_document_order (name attr : string) (root : Soup.node) :
  document_order (Soup.find_all name attr root).
Proof.
  unfold Soup.find_all, Soup.descendants, document_order.
  apply ForallOrdPairs_filter.
  pose proof (walk_document_order root []) as H. unfold document_order in H.
  destruct (Soup.walk [] root); simpl; [constructor|].
  inversion H. assumption.
Qed.

Lemma find_all_node_at (name attr : string) (root : Soup.node) (p : Soup.path)
    (el : Soup.node) :
  In (p, el) (Soup.find_all name attr root) ->
  node_at p root = Some el /\ Soup.matches name attr el = true.
Proof.
  unfold Soup.find_all, Soup.descendants. intros H.
  apply filter_In in H as [H Hm]. split; [|exact Hm].
  assert (Hw : In (p, el) (Soup.walk [] root)).
  { destruct (Soup.walk [] root); [destruct H | right; exact H]. }
  destruct (walk_node_at root _ _ _ Hw) as (d & -> & Hd). exact Hd.
Qed.

Lemma nth_error_update_nth {A : Type} (f : A -> A) (l : list A) (i j : nat) :
  nth_error (Soup.update_nth i f l) j
    = if Nat.eqb i j then option_map f (nth_error l j) else nth_error l j.
Proof.
  revert i j. induction l as [|x l IH]; intros i j.
  - destruct i, j; simpl; try reflexivity. destruct (Nat.eqb i j); reflexivity.
  - destruct i, j; simpl; try reflexivity. apply IH.
Qed.

(** [replace_with] puts the string where the tag was. *)
Lemma node_at_replace_with_here (p : Soup.path) (s : string) :
  forall root el, node_at p root = Some el ->
    node_at p (Soup.replace_with p s root) = Some (Soup.NavigableString s).
Proof.
  induction p as [|i p IH]; intros root el H; [reflexivity|].
  simpl in H. destruct root as [x|x|name attrs cs]; try discriminate.
  simpl. rewrite nth_error_update_nth, Nat.eqb_refl.
  destruct (nth_error cs i) as [c|]; [|discriminate].
  simpl. apply (IH c el H).
Qed.

(** A string in the tree stays when a tag is replaced that is neither the
    string nor above it. *)
Lemma node_at_replace_with_string (q : Soup.path) (s x : string) :
  forall p root, node_at p root = Some (Soup.NavigableString x) ->
    ~ is_prefix q p ->
    node_at p (Soup.replace_with q s root) = Some (Soup.NavigableString x).
Proof.
  induction q as [|i q IH]; intros p root H Hq.
  - exfalso. apply Hq. exists p. reflexivity.
  - destruct root as [y|y|name attrs cs]; simpl; try exact H.
    destruct p as [|j p]; [discriminate|].
    simpl in *. rewrite nth_error_update_nth.
    destruct (Nat.eqb i j) eqn:E; [|exact H].
    apply Nat.eqb_eq in E. subst j.
    destruct (nth_error cs i) as [c|]; [|discriminate]. simpl.
    apply IH; [exact H|].
    intros Hpre. apply Hq. apply is_prefix_cons. auto.
Qed.

(** A node stays when a tag is replaced elsewhere: not at it, not above it
    and not below it. *)
Lemma node_at_replace_with_apart (q : Soup.path) (s : string) :
  forall p root, ~ is_prefix q p -> ~ is_prefix p q ->
    node_at p (Soup.replace_with q s root) = node_at p root.
Proof.
  induction q as [|i q IH]; intros p root Hq Hp.
  - exfalso. apply Hq. exists p. reflexivity.
  - destruct root as [y|y|name attrs cs]; simpl; try reflexivity.
    destruct p as [|j p].
    + exfalso. apply Hp. exists (i :: q). reflexivity.
    + simpl. rewrite nth_error_update_nth.
      destruct (Nat.eqb i j) eqn:E; [|reflexivity].
      apply Nat.eqb_eq in E. subst j.
      destruct (nth_error cs i) as [c|]; [|reflexivity]. simpl.
      apply IH; intros Hpre; [apply Hq | apply Hp]; apply is_prefix_cons; auto.
Qed.

(** ** The replacement loop *)

Section ReplaceEach.

Variable replacement : Soup.node -> outcome string.

Lemma replace_each_keeps_string (found : list (Soup.path * Soup.node)) :
  forall soup soup' p x,
    replace_each replacement found soup = Returns soup' ->
    node_at p soup = Some (Soup.NavigableString x) ->
    Forall (fun b => ~ is_prefix (fst b) p) found ->
    node_at p soup' = Some (Soup.NavigableString x).
Proof.
  induction found as [|[q el] found IH]; intros soup soup' p x Hrun Hp Hall.
  - inversion Hrun. subst. exact Hp.
  - simpl in Hrun. destruct (replacement el) as [s|e]; [|discriminate].
    simpl in Hrun. inversion Hall as [|? ? Hq Hrest]. subst.
    apply (IH _ _ _ _ Hrun); [|exact Hrest].
    apply node_at_replace_with_string; assumption.
Qed.

(** Every element the loop is given gets a replacement string.  Those in
    [keep], a set of elements that are in the soup when the loop starts and
    have none of the others above them, end up replaced by their string. *)
Lemma replace_each_replaces (keep : Soup.path -> Prop)
    (found : list (Soup.path * Soup.node)) :
  forall soup soup',
    document_order found ->
    (forall p q el, In (q, el) found -> keep p -> ~ below q p) ->
    (forall p el, In (p, el) found -> keep p -> node_at p soup = Some el) ->
    replace_each replacement found soup = Returns soup' ->
    forall p el, In (p, el) found ->
      exists s, replacement el = Returns s /\
        (keep p -> node_at p soup' = Some (Soup.NavigableString s)).
Proof.
  induction found as [|[q el0] found IH];
    intros soup soup' Hord Hout Hat Hrun p el Hin; [destruct Hin|].
  simpl in Hrun. destruct (replacement el0) as [s0|e] eqn:Hs0; [|discriminate].
  simpl in Hrun. inversion Hord as [|? ? Hq Hord']. subst.
  destruct Hin as [E|Hin].
  - inversion E. subst. exists s0. split; [exact Hs0|]. intros Hk.
    apply (replace_each_keeps_string _ _ _ _ _ Hrun); [|exact Hq].
    apply (node_at_replace_with_here _ _ _ el).
    apply Hat; [left; reflexivity | exact Hk].
  - apply (IH (Soup.replace_with q s0 soup) soup'); try assumption.
    + intros r q' el' Hin' Hk. apply (Hout r q' el'); [right|]; assumption.
    + intros r el' Hin' Hk.
      rewrite node_at_replace_with_apart.
      * apply Hat; [right|]; assumption.
      * intros [d Hd]. destruct d as [|i d].
        -- rewrite app_nil_r in Hd. subst r.
           rewrite Forall_forall in Hq. apply (Hq _ Hin'). apply is_prefix_refl.
        -- apply (Hout r q el0); [left; reflexivity | exact Hk |].
           exists (i :: d). split; [discriminate | exact Hd].
      * rewrite Forall_forall in Hq. apply (Hq _ Hin').
Qed.

End ReplaceEach.

(** The loop over what [find_all] returns: every element found gets its
    replacement string, and the outermost ones carry it in the soup
    afterwards. *)
Lemma replace_each_find_all (replacement : Soup.node -> outcome string)
    (name attr : string) (soup soup' : Soup.node) :
  replace_each replacement (Soup.find_all name attr soup) soup = Returns soup' ->
  forall p el, In (p, el) (Soup.find_all name attr soup) ->
    exists s, replacement el = Returns s /\
      (outermost (Soup.find_all name attr soup) p ->
         node_at p soup' = Some (Soup.NavigableString s)).
Proof.
  intros Hrun. apply (replace_each_replaces replacement
    (outermost (Soup.find_all name attr soup)) _ soup soup'); try assumption.
  - apply find_all_document_order.
  - intros p q el Hin Hk. apply (Hk q el Hin).
  - intros p el Hin _. apply (find_all_node_at _ _ _ _ _ Hin).
Qed.

Lemma replace_each_returns (replacement : Soup.node -> outcome string)
    (found : list (Soup.path * Soup.node)) :
  (forall p el, In (p, el) found -> exists s, replacement el = Returns s) ->
  forall soup, exists soup', replace_each replacement found soup = Returns soup'.
Proof.
  induction found as [|[p el] found IH]; intros Hall soup.
  - exists soup. reflexivity.
  - destruct (Hall p el) as [s Hs]; [left; reflexivity|].
    destruct (IH (fun q el' H => Hall q el' (or_intror H)) (Soup.replace_with p s soup))
      as [soup' H].
    exists soup'. simpl. rewrite Hs. exact H.
Qed.

Lemma matches_getitem (name attr : string) (el : Soup.node) :
  Soup.matches name attr el = true ->
  exists v, Soup.getitem el attr = Returns v.
Proof.
  destruct el as [s|s|nm attrs cs]; simpl; try discriminate.
  intros H. apply andb_true_iff in H as [_ H].
  destruct (Soup.lookup attrs attr) as [v|]; [|discriminate].
  exists v. reflexivity.
Qed.

(** An anchor whose text is one string has it trimmed. *)
Lemma get_text_one_string (n : Soup.node) (x : string) :
  Soup.strings n = [x] -> Soup.get_text "" true n = trimmed_inner_text n.
Proof.
  unfold trimmed_inner_text, Soup.get_text. intros H. rewrite H.
  cbn [map filter PyStr.join].
  destruct (PyStr.strip x) as [|c s] eqn:E; reflexivity.
Qed.

Local Open Scope string_scope.

Section Annotator.

Variable urljoin : string -> string -> outcome string.

Lemma resolve_cases (url ref resolved : string) :
  resolve urljoin url ref = Returns resolved ->
  if PyStr.startswith ref "/" then urljoin url ref = Returns resolved
  else resolved = ref.
Proof.
  unfold resolve. destruct (PyStr.startswith ref "/"); [auto|].
  intros H. inversion H. reflexivity.
Qed.

(** C5, as the code has it.  Every anchor with an [href] gets the string
    "{text} [{resolved href}]", or "[{resolved href}]" when the text is
    empty.  The text is what [get_text(strip=True)] gives: the strings of
    the anchor, each one trimmed, the empty ones dropped, put together with
    nothing in between; it is the trimmed inner text when the anchor holds
    one string.  An [href] that starts with a slash is resolved by
    [urljoin], any other is taken as it is.  The string takes the place of
    every anchor that is not inside another anchor with an [href]. *)
Theorem anchors_are_annotated (url : string) (soup soup' : Soup.node)
    (p : Soup.path) (link : Soup.node) :
  replace_each (link_replacement urljoin url)
    (Soup.find_all "a" "href" soup) soup = Returns soup' ->
  In (p, link) (Soup.find_all "a" "href" soup) ->
  exists href resolved,
    Soup.getitem link "href" = Returns href /\
    (if PyStr.startswith href "/" then urljoin url href = Returns resolved
     else resolved = href) /\
    let link_text := Soup.get_text "" true link in
    let s := if PyStr.truthy link_text
             then link_text ++ " [" ++ resolved ++ "]"
             else "[" ++ resolved ++ "]" in
    link_replacement urljoin url link = Returns s /\
    (forall x, Soup.strings link = [x] -> link_text = trimmed_inner_text link) /\
    (outermost (Soup.find_all "a" "href" soup) p ->
       node_at p soup' = Some (Soup.NavigableString s)).
Proof.
  intros Hrun Hin.
  destruct (replace_each_find_all _ _ _ _ _ Hrun p link Hin) as (s & Hs & Hat).
  destruct (find_all_node_at _ _ _ _ _ Hin) as [_ Hm].
  destruct (matches_getitem _ _ _ Hm) as [href Hhref].
  unfold link_replacement in Hs. rewrite Hhref in Hs. simpl in Hs.
  destruct (resolve urljoin url href) as [resolved|e] eqn:Hres; [|discriminate].
  simpl in Hs. exists href, resolved.
  split; [exact Hhref|]. split; [apply resolve_cases; exact Hres|].
  cbv zeta. unfold link_replacement. rewrite Hhref. simpl. rewrite Hres. simpl.
  destruct (PyStr.truthy (Soup.get_text "" true link)); inversion Hs; subst;
    (split; [reflexivity|]); (split; [apply get_text_one_string | exact Hat]).
Qed.

(** C6, as the code has it.  The loop over the images runs on the soup the
    loop over the links leaves.  Every image with a [src] in that soup gets
    the string "[Image: {alt}] [{resolved src}]" when its [alt], trimmed,
    is not empty, and "[Image] [{resolved src}]" when the [alt] is missing
    or trims to nothing.  A [src] that starts with a slash is resolved by
    [urljoin], any other is taken as it is.  The string takes the place of
    the image in the soup. *)
Theorem images_are_annotated (url : string) (soup soup' : Soup.node) :
  annotate urljoin url soup = Returns soup' ->
  exists soup1,
    replace_each (link_replacement urljoin url)
      (Soup.find_all "a" "href" soup) soup = Returns soup1 /\
    forall p img, In (p, img) (Soup.find_all "img" "src" soup1) ->
      exists src resolved,
        Soup.getitem img "src" = Returns src /\
        (if PyStr.startswith src "/" then urljoin url src = Returns resolved
         else resolved = src) /\
        let alt_text := PyStr.strip (Soup.get img "alt" "") in
        let s := if PyStr.truthy alt_text
                 then "[Image: " ++ alt_text ++ "] [" ++ resolved ++ "]"
                 else "[Image] [" ++ resolved ++ "]" in
        img_replacement urljoin url img = Returns s /\
        (outermost (Soup.find_all "img" "src" soup1) p ->
           node_at p soup' = Some (Soup.NavigableString s)).
Proof.
  unfold annotate. intros Hrun.
  destruct (replace_each (link_replacement urljoin url)
              (Soup.find_all "a" "href" soup) soup) as [soup1|e]; [|discriminate].
  simpl in Hrun. exists soup1. split; [reflexivity|]. intros p img Hin.
  destruct (replace_each_find_all _ _ _ _ _ Hrun p img Hin) as (s & Hs & Hat).
  destruct (find_all_node_at _ _ _ _ _ Hin) as [_ Hm].
  destruct (matches_getitem _ _ _ Hm) as [src Hsrc].
  unfold img_replacement in Hs. rewrite Hsrc in Hs. simpl in Hs.
  destruct (resolve urljoin url src) as [resolved|e] eqn:Hres; [|discriminate].
  simpl in Hs. exists src, resolved.
  split; [exact Hsrc|]. split; [apply resolve_cases; exact Hres|].
  cbv zeta. unfold img_replacement. rewrite Hsrc. simpl. rewrite Hres. simpl.
  destruct (PyStr.truthy (PyStr.strip (Soup.get img "alt" ""))); inversion Hs; subst;
    (split; [reflexivity | exact Hat]).
Qed.

(** ** The lists of links and images *)

Lemma collect_resolves (url attr : string) (found : list (Soup.path * Soup.node)) :
  forall refs, collect urljoin url attr found = Returns refs ->
    Forall2 (resolves_to urljoin url attr) found refs.
Proof.
  induction found as [|[p el] found IH]; intros refs H; simpl in H.
  - inversion H. constructor.
  - destruct (Soup.getitem el attr) as [ref|e] eqn:Hget; [|discriminate]. simpl in H.
    destruct (resolve urljoin url ref) as [resolved|e] eqn:Hres; [|discriminate].
    simpl in H.
    destruct (collect urljoin url attr found) as [rest|e]; [|discriminate].
    simpl in H. inversion H. subst. constructor; [|apply IH; reflexivity].
    exists ref. split; [exact Hget | apply resolve_cases; exact Hres].
Qed.

End Annotator.

Section Collector.

Variable requests_get : string -> outcome Response.
Variable html_parser : string -> outcome Soup.node.
Variable urljoin : string -> string -> outcome string.

(** C4, as the code has it.  When the fetch goes through, [links] holds one
    string for every anchor with an [href] of the document and [images] one
    for every image with a [src], in document order: [urljoin(url, value)]
    when the value starts with a slash, the value as it is written
    otherwise.  A relative form without a leading slash stays relative. *)
Theorem links_and_images_are_resolved (url content : string)
    (links images : list string) :
  fetch_body requests_get html_parser urljoin url
    = Returns (Some content, links, images) ->
  exists r soup,
    requests_get url = Returns r /\
    html_parser (text r) = Returns soup /\
    fetch_webpage_python requests_get html_parser urljoin url
      = Returns (Some content, links, images) /\
    Forall2 (resolves_to urljoin url "href") (Soup.find_all "a" "href" soup) links /\
    Forall2 (resolves_to urljoin url "src") (Soup.find_all "img" "src" soup) images.
Proof.
  intros H. unfold fetch_webpage_python. rewrite H.
  unfold fetch_body in H.
  destruct (requests_get url) as [r|e] eqn:Hr; [|discriminate]. simpl in H.
  destruct (raise_for_status r) as [[]|e]; [|discriminate]. simpl in H.
  destruct (negb (PyStr.contains "text/html" _)); [discriminate|].
  destruct (negb (PyStr.truthy (text r))); [discriminate|].
  destruct (html_parser (text r)) as [soup|e] eqn:Hp; [|discriminate]. simpl in H.
  destruct (annotate urljoin url soup) as [soup'|e]; [|discriminate]. simpl in H.
  destruct (negb (PyStr.truthy _)); [discriminate|].
  destruct (collect urljoin url "href" _) as [ls|e] eqn:Hl; [|discriminate].
  simpl in H.
  destruct (collect urljoin url "src" _) as [ims|e] eqn:Hi; [|discriminate].
  simpl in H. inversion H. subst.
  exists r, soup. split; [reflexivity|]. split; [exact Hp|].
  split; [reflexivity|].
  split; apply collect_resolves; assumption.
Qed.

End Collector.

(** ** Rounding *)

Local Open Scope Q_scope.

Lemma round_half_even_bounds (x : Q) :
  inject_Z (Float.round_half_even x) - (1 # 2) <= x /\
  x <= inject_Z (Float.round_half_even x) + (1 # 2).
Proof.
  unfold Float.round_half_even.
  pose proof (Qfloor_le x) as Hlo. pose proof (Qlt_floor x) as Hhi.
  rewrite inject_Z_plus in Hhi. change (inject_Z 1) with 1 in Hhi.
  destruct (Qcompare_spec (x - inject_Z (Qfloor x)) (1 # 2)) as [E|E|E];
    try destruct (Z.even (Qfloor x));
    rewrite ?inject_Z_plus; change (inject_Z 1) with 1; lra.
Qed.

(** On a tie the even neighbour is taken. *)
Lemma round_half_even_tie (x : Q) :
  Qabs (inject_Z (Float.round_half_even x) - x) == 1 # 2 ->
  Z.even (Float.round_half_even x) = true.
Proof.
  unfold Float.round_half_even.
  pose proof (Qfloor_le x) as Hlo. pose proof (Qlt_floor x) as Hhi.
  rewrite inject_Z_plus in Hhi. change (inject_Z 1) with 1 in Hhi.
  destruct (Qcompare_spec (x - inject_Z (Qfloor x)) (1 # 2)) as [E|E|E].
  - intros _. destruct (Z.even (Qfloor x)) eqn:Hev; [exact Hev|].
    rewrite Z.add_1_r, Z.even_succ, <- Z.negb_even, Hev. reflexivity.
  - intros H. exfalso. revert H. apply Qabs_case; intros; lra.
  - intros H. exfalso. revert H. rewrite inject_Z_plus. change (inject_Z 1) with 1.
    apply Qabs_case; intros; lra.
Qed.

(** The integer strictly within one half of [x] is the rounded value. *)
Lemma round_half_even_unique (x : Q) (k : Z) :
  inject_Z k - (1 # 2) < x -> x < inject_Z k + (1 # 2) ->
  Float.round_half_even x = k.
Proof.
  intros Hlo Hhi. destruct (round_half_even_bounds x) as [Blo Bhi].
  set (n := Float.round_half_even x) in *.
  assert (H1 : inject_Z n < inject_Z (k + 1)).
  { rewrite inject_Z_plus. change (inject_Z 1) with 1. lra. }
  assert (H2 : inject_Z k < inject_Z (n + 1)).
  { rewrite inject_Z_plus. change (inject_Z 1) with 1. lra. }
  rewrite <- Zlt_Qlt in H1, H2. lia.
Qed.

Lemma round_half_even_comp (x y : Q) :
  x == y -> Float.round_half_even x = Float.round_half_even y.
Proof.
  intros H. unfold Float.round_half_even.
  rewrite (Qfloor_comp x y H).
  assert (E : (x - inject_Z (Qfloor y) ?= 1 # 2) = (y - inject_Z (Qfloor y) ?= 1 # 2)).
  { apply Qcompare_comp; [rewrite H; reflexivity | reflexivity]. }
  rewrite E. reflexivity.
Qed.

Lemma round_half_even_int (z : Z) : Float.round_half_even (inject_Z z) = z.
Proof.
  apply round_half_even_unique; lra.
Qed.

(** On these lengths and word counts the model of the float computation
    and the IEEE 754 operations of the Standard Library give the same
    number. *)
Lemma float_estimate_agrees_with_binary64 :
  forallb (fun LW => Qeq_bool (float_estimate (fst LW) (snd LW))
                       (Float.Q_of_binary64 (binary64_estimate (fst LW) (snd LW))))
    [(0, 0); (1, 1); (5, 2); (16, 3); (37, 7); (38, 4); (1000, 143);
     (123456789, 20000001); (2 ^ 44 + 1, 2 ^ 43 - 1); (2 ^ 45 - 1, 2 ^ 44 - 1)]%Z
  = true.
Proof. vm_compute. reflexivity. Qed.

(** ** Powers of two *)

Lemma two_neq_0 : ~ 2 == 0.
Proof. discriminate. Qed.

Lemma pow2_pos (e : Z) : 0 < 2 ^ e.
Proof. apply Qpower_0_lt. reflexivity. Qed.

Lemma pow2_add (a b : Z) : 2 ^ (a + b) == 2 ^ a * 2 ^ b.
Proof. apply Qpower_plus. exact two_neq_0. Qed.

Lemma pow2_le (a b : Z) : (a <= b)%Z -> 2 ^ a <= 2 ^ b.
Proof. intros H. apply Qpower_le_compat_l; [exact H | discriminate]. Qed.

Lemma pow2_lt_inv (a b : Z) : 2 ^ a < 2 ^ b -> (a < b)%Z.
Proof. intros H. apply (Qpower_lt_compat_l_inv 2); [exact H | reflexivity]. Qed.

Lemma pow2_Z (n : Z) : (0 <= n)%Z -> 2 ^ n == inject_Z (2 ^ n).
Proof. intros H. rewrite (Zpower_Qpower 2 n H). reflexivity. Qed.

(** [ilog2] finds the binade of a positive rational. *)
Lemma ilog2_spec (x : Q) :
  0 < x -> 2 ^ Float.ilog2 x <= x /\ x < 2 ^ (Float.ilog2 x + 1).
Proof.
  intros Hx. unfold Float.ilog2.
  destruct x as [p q]. 
  assert (Hp : (0 < p)%Z).
  { unfold Qlt in Hx. simpl in Hx. lia. }
  cbn [Qnum Qden].
  set (a := Z.log2 p). set (b := Z.log2 (Z.pos q)).
  assert (Ha : (0 <= a)%Z) by apply Z.log2_nonneg.
  assert (Hb : (0 <= b)%Z) by apply Z.log2_nonneg.
  destruct (Z.log2_spec p Hp) as [Ha1 Ha2]. fold a in Ha1, Ha2.
  destruct (Z.log2_spec (Z.pos q) (eq_refl : (0 < Z.pos q)%Z)) as [Hb1 Hb2].
  fold b in Hb1, Hb2.
  rewrite Zle_Qle in Ha1, Hb1. rewrite Zlt_Qlt in Ha2, Hb2.
  rewrite <- pow2_Z in Ha1, Hb1 by assumption.
  rewrite <- pow2_Z in Ha2, Hb2 by lia.
  unfold Z.succ in Ha2, Hb2.
  assert (Hq : 0 < inject_Z (Z.pos q)) by reflexivity.
  assert (Hpq : p # q == inject_Z p / inject_Z (Z.pos q)) by apply Qmake_Qdiv.
  assert (Hlo : 2 ^ (a - b - 1) <= p # q).
  { rewrite Hpq. apply Qle_shift_div_l; [exact Hq|].
    apply Qle_trans with (2 ^ (a - b - 1) * 2 ^ (b + 1)).
    - apply Qmult_le_l; [apply pow2_pos | apply Qlt_le_weak; exact Hb2].
    - rewrite <- pow2_add. replace (a - b - 1 + (b + 1))%Z with a by lia. exact Ha1. }
  assert (Hhi : p # q < 2 ^ (a - b + 1)).
  { rewrite Hpq. apply Qlt_shift_div_r; [exact Hq|].
    apply Qlt_le_trans with (2 ^ (a + 1)); [exact Ha2|].
    replace (a + 1)%Z with ((a - b + 1) + b)%Z by lia. rewrite pow2_add.
    apply Qmult_le_l; [apply pow2_pos | exact Hb1]. }
  destruct (Qle_bool (2 ^ (a - b)) (p # q)) eqn:E.
  - apply Qle_bool_iff in E. split; [exact E | exact Hhi].
  - split; [exact Hlo|].
    replace (a - b - 1 + 1)%Z with (a - b)%Z by lia.
    apply Qnot_le_lt. intros H. apply Qle_bool_iff in H. congruence.
Qed.

Lemma ilog2_unique (x : Q) (e : Z) :
  2 ^ e <= x -> x < 2 ^ (e + 1) -> Float.ilog2 x = e.
Proof.
  intros Hlo Hhi.
  assert (Hx : 0 < x) by (apply Qlt_le_trans with (2 ^ e); [apply pow2_pos | exact Hlo]).
  destruct (ilog2_spec x Hx) as [Slo Shi].
  assert (H1 : (e < Float.ilog2 x + 1)%Z).
  { apply pow2_lt_inv. apply Qle_lt_trans with x; assumption. }
  assert (H2 : (Float.ilog2 x < e + 1)%Z).
  { apply pow2_lt_inv. apply Qle_lt_trans with x; assumption. }
  lia.
Qed.

Lemma ilog2_comp (x y : Q) : 0 < x -> x == y -> Float.ilog2 x = Float.ilog2 y.
Proof.
  intros Hx H. destruct (ilog2_spec x Hx) as [Slo Shi].
  symmetry. apply ilog2_unique; rewrite <- H; assumption.
Qed.

(** ** Rounding to binary64 *)

Lemma round53_zero (x : Q) : x == 0 -> Float.round53 x == 0.
Proof.
  intros H. unfold Float.round53.
  apply Qeq_bool_iff in H. rewrite H. reflexivity.
Qed.

Lemma round53_pos (x : Q) :
  0 < x ->
  Float.round53 x ==
    inject_Z (Float.round_half_even (x / 2 ^ (Float.ilog2 x - 52)))
    * 2 ^ (Float.ilog2 x - 52).
Proof.
  intros Hx. unfold Float.round53.
  destruct (Qeq_bool x 0) eqn:E.
  - apply Qeq_bool_iff in E. lra.
  - rewrite Qred_correct.
    assert (Habs : Qabs x == x) by (apply Qabs_pos; lra).
    assert (Hl : Float.ilog2 (Qabs x) = Float.ilog2 x).
    { apply ilog2_comp; [rewrite Habs; exact Hx | exact Habs]. }
    rewrite Hl. reflexivity.
Qed.

Lemma round53_comp (x y : Q) :
  0 <= x -> x == y -> Float.round53 x == Float.round53 y.
Proof.
  intros Hx H. destruct (Qlt_le_dec 0 x) as [Hpos|Hneg].
  - assert (Hy : 0 < y) by (rewrite <- H; exact Hpos).
    rewrite (round53_pos x Hpos), (round53_pos y Hy).
    rewrite (ilog2_comp x y Hpos H).
    assert (E : x / 2 ^ (Float.ilog2 y - 52) == y / 2 ^ (Float.ilog2 y - 52)).
    { rewrite H. reflexivity. }
    rewrite (round_half_even_comp _ _ E). reflexivity.
  - assert (E : x == 0) by lra.
    rewrite (round53_zero x E), (round53_zero y); [reflexivity|].
    rewrite <- H. exact E.
Qed.

(** The relative error of one rounding is at most [2^-53]. *)
Lemma round53_error (x : Q) :
  0 < x ->
  x - x * (1 # 2 ^ 53) <= Float.round53 x /\
  Float.round53 x <= x + x * (1 # 2 ^ 53).
Proof.
  intros Hx. rewrite (round53_pos x Hx).
  destruct (ilog2_spec x Hx) as [Slo _].
  set (e0 := Float.ilog2 x) in *.
  pose proof (pow2_pos (e0 - 52)) as Hu.
  assert (E : 2 ^ e0 == 2 ^ (e0 - 52) * inject_Z (2 ^ 52)).
  { rewrite <- pow2_Z by lia. rewrite <- pow2_add.
    replace (e0 - 52 + 52)%Z with e0 by lia. reflexivity. }
  rewrite E in Slo. clear E.
  set (u := 2 ^ (e0 - 52)) in *.
  destruct (round_half_even_bounds (x / u)) as [Blo Bhi].
  set (n := inject_Z (Float.round_half_even (x / u))) in *.
  assert (Hxu : x / u * u == x) by (field; lra).
  apply (Qmult_le_compat_r _ _ u) in Blo; [|lra].
  apply (Qmult_le_compat_r _ _ u) in Bhi; [|lra].
  rewrite Hxu in Blo, Bhi.
  assert (Hl : (n - (1 # 2)) * u == n * u - (1 # 2) * u) by ring.
  assert (Hr : (n + (1 # 2)) * u == n * u + (1 # 2) * u) by ring.
  rewrite Hl in Blo. rewrite Hr in Bhi.
  change (inject_Z (2 ^ 52)) with (4503599627370496 # 1) in Slo.
  change (1 # 2 ^ 53) with (1 # 9007199254740992).
  set (nu := n * u) in *. clearbody nu. clear Hl Hr Hxu.
  split; lra.
Qed.

(** A value with a significand below [2^53] is kept as it is. *)
Lemma round53_exact (m k : Z) :
  (0 <= m < 2 ^ 53)%Z ->
  Float.round53 (inject_Z m * 2 ^ k) == inject_Z m * 2 ^ k.
Proof.
  intros [Hm0 Hm]. destruct (Z.eq_dec m 0) as [->|Hne].
  - assert (E : inject_Z 0 * 2 ^ k == 0) by ring.
    rewrite (round53_zero _ E), E. reflexivity.
  - assert (Hmp : 0 < inject_Z m).
    { change 0 with (inject_Z 0). rewrite <- Zlt_Qlt. lia. }
    pose proof (pow2_pos k) as Hk.
    set (x := inject_Z m * 2 ^ k).
    assert (Hx : 0 < x) by (apply Qmult_lt_0_compat; assumption).
    rewrite (round53_pos x Hx).
    destruct (ilog2_spec x Hx) as [Slo _].
    set (e0 := Float.ilog2 x) in *.
    assert (He : (e0 - 52 <= k)%Z).
    { assert (H : (e0 < 53 + k)%Z); [|lia].
      apply pow2_lt_inv. apply Qle_lt_trans with x; [exact Slo|].
      unfold x. rewrite pow2_add. apply Qmult_lt_compat_r; [exact Hk|].
      rewrite pow2_Z by lia. rewrite <- Zlt_Qlt. exact Hm. }
    assert (Hsplit : 2 ^ k == 2 ^ (k - (e0 - 52)) * 2 ^ (e0 - 52)).
    { rewrite <- pow2_add. replace (k - (e0 - 52) + (e0 - 52))%Z with k by lia.
      reflexivity. }
    pose proof (pow2_pos (e0 - 52)) as Hu.
    assert (Hint : x / 2 ^ (e0 - 52) == inject_Z (m * 2 ^ (k - (e0 - 52)))).
    { unfold x. rewrite Hsplit. rewrite inject_Z_mult.
      rewrite <- pow2_Z by lia. field. lra. }
    rewrite (round_half_even_comp _ _ Hint), round_half_even_int.
    unfold x. rewrite inject_Z_mult, <- pow2_Z by lia.
    rewrite Hsplit. ring.
Qed.

Lemma round53_comp_any (x y : Q) : x == y -> Float.round53 x == Float.round53 y.
Proof.
  intros H. destruct (Qlt_le_dec 0 x) as [Hpos|Hneg].
  - apply round53_comp; [lra | exact H].
  - unfold Float.round53.
    assert (Hb : Qeq_bool x 0 = Qeq_bool y 0).
    { destruct (Qeq_bool x 0) eqn:Ex; destruct (Qeq_bool y 0) eqn:Ey; try reflexivity.
      - apply Qeq_bool_iff in Ex. apply Qeq_bool_neq in Ey. exfalso. apply Ey.
        rewrite <- H. exact Ex.
      - apply Qeq_bool_iff in Ey. apply Qeq_bool_neq in Ex. exfalso. apply Ex.
        rewrite H. exact Ey. }
    rewrite <- Hb. destruct (Qeq_bool x 0) eqn:Ex; [reflexivity|].
    apply Qeq_bool_neq in Ex.
    assert (Habs : Qabs x == Qabs y) by (rewrite H; reflexivity).
    assert (Hp : 0 < Qabs x).
    { apply Qabs_case; intros; lra. }
    rewrite !Qred_correct, (ilog2_comp _ _ Hp Habs).
    assert (E : x / 2 ^ (Float.ilog2 (Qabs y) - 52)
                == y / 2 ^ (Float.ilog2 (Qabs y) - 52)) by (rewrite H; reflexivity).
    rewrite (round_half_even_comp _ _ E). reflexivity.
Qed.

#[local] Instance round53_proper : Proper (Qeq ==> Qeq) Float.round53.
Proof. intros x y H. apply round53_comp_any. exact H. Qed.

Lemma round53_dyadic (x : Q) (m k : Z) :
  (0 <= m < 2 ^ 53)%Z -> x == inject_Z m * 2 ^ k -> Float.round53 x == x.
Proof.
  intros Hm H. rewrite H. apply round53_exact. exact Hm.
Qed.

(** ** Counting words *)

Local Open Scope nat_scope.

Lemma split_from_length (s : string) :
  forall cur,
    List.length (PyStr.split_from cur s)
      = (match cur with Some _ => 1 | None => 0 end)
        + word_starts (match cur with Some _ => false | None => true end) s.
Proof.
  induction s as [|c s IH]; intros cur; simpl.
  - destruct cur; reflexivity.
  - destruct (PyStr.isspace c); destruct cur; simpl; rewrite ?IH; simpl; lia.
Qed.

(** [len(text.split())] is the number of whitespace-separated words. *)
Lemma split_counts_words (s : string) :
  List.length (PyStr.split s) = word_starts true s.
Proof. unfold PyStr.split. rewrite split_from_length. reflexivity. Qed.

Lemma word_starts_le_length (s : string) :
  forall b, word_starts b s <= String.length s.
Proof.
  induction s as [|c s IH]; intros b; simpl; [lia|].
  destruct (PyStr.isspace c); [specialize (IH true); lia|].
  specialize (IH false). destruct b; lia.
Qed.

(** ** The estimate *)

Local Open Scope Q_scope.

Lemma char_estimate_exact (L : Z) :
  (0 <= L < 2 ^ 45)%Z -> Float.int_truediv L 4 == inject_Z L / 4.
Proof.
  intros HL. unfold Float.int_truediv. change (inject_Z 4) with 4.
  apply (round53_dyadic _ L (-2)); [lia|].
  change (2 ^ (-2)) with (1 # 4). field.
Qed.

Lemma of_int_exact (n : Z) :
  (0 <= n < 2 ^ 53)%Z -> Float.of_int n == inject_Z n.
Proof.
  intros Hn. unfold Float.of_int. apply (round53_dyadic _ n 0); [exact Hn|].
  change (2 ^ 0) with 1. ring.
Qed.

(** With a word count that is a multiple of 3 every intermediate value is a
    binary64 number: nothing is rounded. *)
Lemma float_estimate_exact (L W : Z) :
  (0 <= L < 2 ^ 45)%Z -> (0 <= W <= L)%Z -> (W mod 3 = 0)%Z ->
  float_estimate L W == exact_estimate L W.
Proof.
  intros HL HW Hmod. unfold float_estimate, exact_estimate.
  apply Z.mod_divide in Hmod; [|lia]. destruct Hmod as [j Hj].
  unfold Float.div, Float.add.
  rewrite (char_estimate_exact L HL).
  rewrite (of_int_exact 2) by lia. rewrite (of_int_exact W) by lia.
  assert (Hw : inject_Z W / (3 # 4) == inject_Z (4 * j)).
  { rewrite Hj, !inject_Z_mult. change (inject_Z 3) with 3.
    change (inject_Z 4) with 4. field. }
  rewrite Hw.
  rewrite (round53_dyadic (inject_Z (4 * j)) (4 * j) 0); [|lia|].
  2:{ change (2 ^ 0) with 1. ring. }
  assert (Hs : inject_Z L / 4 + inject_Z (4 * j) == inject_Z (L + 16 * j) * 2 ^ (-2)).
  { rewrite inject_Z_plus, !inject_Z_mult. change (2 ^ (-2)) with (1 # 4).
    change (inject_Z 4) with 4. change (inject_Z 16) with 16. field. }
  rewrite (round53_dyadic (inject_Z L / 4 + inject_Z (4 * j)) (L + 16 * j) (-2));
    [|lia|exact Hs].
  change (inject_Z 2) with 2.
  apply (round53_dyadic _ (L + 16 * j) (-3)); [lia|].
  rewrite Hs. change (2 ^ (-2)) with (1 # 4). change (2 ^ (-3)) with (1 # 8). field.
Qed.

(** Otherwise three roundings happen, and the result stays within 1/48 of
    the exact value. *)
Lemma float_estimate_close (L W : Z) :
  (0 <= L < 2 ^ 45)%Z -> (1 <= W <= L)%Z ->
  exact_estimate L W - (1 # 48) <= float_estimate L W /\
  float_estimate L W <= exact_estimate L W + (1 # 48).
Proof.
  intros HL HW. unfold float_estimate, exact_estimate.
  unfold Float.div, Float.add.
  rewrite (char_estimate_exact L HL).
  rewrite (of_int_exact 2) by lia. rewrite (of_int_exact W) by lia.
  change (inject_Z 2) with 2.
  assert (HLq : 0 <= inject_Z L /\ inject_Z L <= inject_Z (2 ^ 45)).
  { rewrite <- !Zle_Qle. change 0 with (inject_Z 0). rewrite <- Zle_Qle. lia. }
  assert (HWq : 1 <= inject_Z W /\ inject_Z W <= inject_Z L).
  { rewrite <- !Zle_Qle. change 1 with (inject_Z 1). rewrite <- Zle_Qle. lia. }
  change (inject_Z (2 ^ 45)) with (35184372088832 # 1) in HLq.
  set (l := inject_Z L) in *. set (w := inject_Z W) in *. clearbody l w.
  assert (Hwe : w / (3 # 4) == w * (4 # 3)) by (field).
  rewrite Hwe.
  assert (H1 : 0 < w * (4 # 3)) by lra.
  destruct (round53_error _ H1) as [E1 E1'].
  set (we := Float.round53 (w * (4 # 3))) in *. clearbody we.
  assert (Hc : l / 4 == l * (1 # 4)) by field. rewrite Hc.
  change (1 # 2 ^ 53) with (1 # 9007199254740992) in *.
  assert (H2 : 0 < l * (1 # 4) + we) by lra.
  destruct (round53_error _ H2) as [E2 E2'].
  change (1 # 2 ^ 53) with (1 # 9007199254740992) in *.
  set (s := Float.round53 (l * (1 # 4) + we)) in *. clearbody s.
  assert (Hs : s / 2 == s * (1 # 2)) by field. rewrite Hs.
  assert (H3 : 0 < s * (1 # 2)) by lra.
  destruct (round53_error _ H3) as [E3 E3'].
  change (1 # 2 ^ 53) with (1 # 9007199254740992) in *.
  set (h := Float.round53 (s * (1 # 2))) in *. clearbody h.
  assert (Hx : (l * (1 # 4) + w * (4 # 3)) / 2 == l * (1 # 8) + w * (2 # 3)) by field.
  rewrite Hx. split; lra.
Qed.

(** Away from a multiple of 3 words, the exact value is at least 1/24 from
    every tie. *)
Lemma exact_estimate_off_tie (L W : Z) :
  (W mod 3 <> 0)%Z ->
  let k := Float.round_half_even (exact_estimate L W) in
  inject_Z k - (11 # 24) <= exact_estimate L W /\
  exact_estimate L W <= inject_Z k + (11 # 24).
Proof.
  intros Hmod k.
  destruct (round_half_even_bounds (exact_estimate L W)) as [Blo Bhi].
  fold k in Blo, Bhi.
  assert (Hx : exact_estimate L W == inject_Z (3 * L + 16 * W) * (1 # 24)).
  { unfold exact_estimate. rewrite inject_Z_plus, !inject_Z_mult.
    change (inject_Z 3) with 3. change (inject_Z 16) with 16. field. }
  clearbody k. rewrite Hx in *. clear Hx.
  set (N := (3 * L + 16 * W)%Z) in *.
  assert (HN : (N mod 3 <> 0)%Z).
  { unfold N. replace (3 * L + 16 * W)%Z with (W + (L + 5 * W) * 3)%Z by ring.
    rewrite Z_mod_plus_full. exact Hmod. }
  clearbody N.
  assert (H1 : inject_Z (24 * k - 12) <= inject_Z N).
  { unfold Z.sub. rewrite inject_Z_plus, inject_Z_mult.
    change (inject_Z 24) with 24. change (inject_Z (- (12))) with (-12). lra. }
  assert (H2 : inject_Z N <= inject_Z (24 * k + 12)).
  { rewrite (inject_Z_plus (24 * k)), inject_Z_mult.
    change (inject_Z 24) with 24. change (inject_Z 12) with 12. lra. }
  rewrite <- Zle_Qle in H1, H2.
  pose proof (Z.div_mod N 3 ltac:(lia)) as Hdiv.
  pose proof (Z.mod_pos_bound N 3 ltac:(lia)) as Hrem.
  set (q := (N / 3)%Z) in *. set (r := (N mod 3)%Z) in *. clearbody q r.
  assert (H1' : (24 * k - 11 <= N)%Z) by lia.
  assert (H2' : (N <= 24 * k + 11)%Z) by lia.
  clear Hdiv Hrem HN.
  rewrite Zle_Qle in H1', H2'.
  unfold Z.sub in H1'. rewrite inject_Z_plus, inject_Z_mult in H1'.
  rewrite (inject_Z_plus (24 * k)), inject_Z_mult in H2'.
  change (inject_Z 24) with 24 in *. change (inject_Z (- (11))) with (-11) in *.
  change (inject_Z 11) with 11 in *.
  split; lra.
Qed.

(** The float computation rounds to the same integer as the exact one. *)
Lemma float_estimate_rounds_alike (L W : Z) :
  (0 <= L < 2 ^ 45)%Z -> (0 <= W <= L)%Z ->
  Float.round_half_even (float_estimate L W)
    = Float.round_half_even (exact_estimate L W).
Proof.
  intros HL HW. destruct (Z.eq_dec (W mod 3) 0) as [Hmod|Hmod].
  - apply round_half_even_comp. apply float_estimate_exact; assumption.
  - assert (HW1 : (1 <= W <= L)%Z).
    { destruct (Z.eq_dec W 0) as [->|]; [exfalso; apply Hmod; reflexivity | lia]. }
    destruct (float_estimate_close L W HL HW1) as [Clo Chi].
    destruct (exact_estimate_off_tie L W Hmod) as [Tlo Thi].
    apply round_half_even_unique; lra.
Qed.

(** C7.  [estimateTokenCount] is the average of [len(text) / 4] and
    [wordCount / 0.75], rounded to the nearest integer, a tie going to the
    even one; [wordCount] is the number of whitespace-separated words.  The
    binary64 computation of the code gives the integer that the formula
    gives over the rationals.  The result is a function of the text.  The
    bound on the length keeps the significands below [2^53]. *)
Theorem estimateTokenCount_is_rounded_average (text : string) :
  (Z.of_nat (String.length text) < 2 ^ 45)%Z ->
  let wordCount := Z.of_nat (word_starts true text) in
  let average :=
    (inject_Z (Z.of_nat (String.length text)) / 4
     + inject_Z wordCount / (3 # 4)) / 2 in
  Z.of_nat (List.length (PyStr.split text)) = wordCount /\
  estimateTokenCount text = Float.round_half_even average /\
  Qabs (inject_Z (estimateTokenCount text) - average) <= 1 # 2 /\
  (Qabs (inject_Z (estimateTokenCount text) - average) == 1 # 2 ->
   Z.even (estimateTokenCount text) = true) /\
  (forall text', text' = text ->
     estimateTokenCount text' = estimateTokenCount text).
Proof.
  intros Hlen wordCount average.
  assert (Hw : Z.of_nat (List.length (PyStr.split text)) = wordCount).
  { unfold wordCount. rewrite split_counts_words. reflexivity. }
  assert (Hest : estimateTokenCount text = Float.round_half_even average).
  { change (estimateTokenCount text)
      with (Float.round_half_even
              (float_estimate (Z.of_nat (String.length text))
                 (Z.of_nat (List.length (PyStr.split text))))).
    rewrite Hw. apply float_estimate_rounds_alike; [lia|].
    unfold wordCount. pose proof (word_starts_le_length text true). lia. }
  split; [exact Hw|]. split; [exact Hest|]. rewrite Hest.
  split; [|split].
  - destruct (round_half_even_bounds average) as [Blo Bhi].
    apply Qabs_Qle_condition. split; lra.
  - apply round_half_even_tie.
  - intros text' ->. exact Hest.
Qed.

Local Open Scope string_scope.

(** ** The statements at sample requests *)

Lemma protocol_relative_is_prefixed_witness :
  Url.urlparse Sample.no_check Sample.no_check "//example.com/a"
    = Returns (Url.mkParseResult "" "example.com") /\
  Sample.serving Sample.hello (Some "//example.com/a")
    = Returns (page "http:////example.com/a"
                 "Hello World [http:///w]" 5).
Proof.
  split; [reflexivity|].
  destruct (protocol_relative_is_prefixed
              (Sample.serve "text/html; charset=utf-8" Sample.hello_html)
              (Sample.parses_to Sample.hello) Sample.urljoin
              Sample.no_check Sample.no_check
              "//example.com/a" (Url.mkParseResult "" "example.com"))
    as [H _]; [reflexivity | reflexivity | discriminate |].
  unfold Sample.serving. rewrite H. vm_compute. reflexivity.
Defined.

(** [example.com] is answered with the invalid-format 400, where the same
    world would have served [http://example.com]. *)
Lemma example_com_is_rejected :
  host_only "example.com" = true /\
  Sample.serving Sample.hello (Some "example.com") = Returns invalid_url /\
  Sample.serving Sample.hello (Some "example.com")
    <> Sample.serving Sample.hello (Some "http://example.com").
Proof.
  split; [reflexivity|]. split; [reflexivity|]. vm_compute. discriminate.
Defined.

Lemma host_only_is_rejected_witness :
  host_only "example.com" = true /\
  Sample.serving Sample.hello (Some "example.com") = Returns invalid_url.
Proof.
  split; [reflexivity|].
  apply (host_only_is_rejected
           (Sample.serve "text/html; charset=utf-8" Sample.hello_html)
           (Sample.parses_to Sample.hello) Sample.urljoin
           Sample.no_check Sample.no_check "example.com").
  reflexivity.
Defined.

Lemma fetch_failure_is_served_as_page_witness :
  Sample.refuse "http://example.com" = Raises (RequestException "Connection refused") /\
  Sample.offline (Some "http://example.com")
    = Returns (page "http://example.com" "Can't fetch page" 4).
Proof.
  split; [reflexivity|].
  apply (fetch_failure_is_served_as_page
           Sample.refuse (Sample.parses_to Sample.hello) Sample.urljoin
           Sample.no_check Sample.no_check
           "http://example.com" "http://example.com").
  - exists (Url.mkParseResult "http" "example.com").
    split; [reflexivity|]. split; [discriminate|].
    left. split; [discriminate | reflexivity].
  - left. exists "Connection refused". reflexivity.
Defined.

(** A JSON document fetched with status 200 is not answered with the JSON
    error body: the handler raises. *)
Lemma json_document_is_not_answered_with_json :
  Sample.serve "application/json" "{}" "http://example.com/data.json"
    = Returns (mkResponse 200 [("Content-Type", "application/json")] "{}") /\
  declares_html (mkResponse 200 [("Content-Type", "application/json")] "{}") = false /\
  Sample.serving_json (Some "http://example.com/data.json") <> Returns fetch_failed.
Proof.
  split; [reflexivity|]. split; [reflexivity|]. vm_compute. discriminate.
Defined.

Lemma non_html_raises_value_error_witness :
  Sample.serving_json (Some "http://example.com/data.json")
    = Raises (ValueError "Expected HTML content but received application/json from http://example.com/data.json").
Proof.
  apply (non_html_raises_value_error
           (Sample.serve "application/json" "{}")
           (Sample.parses_to Sample.hello) Sample.urljoin
           Sample.no_check Sample.no_check
           "http://example.com/data.json" "http://example.com/data.json"
           (mkResponse 200 [("Content-Type", "application/json")] "{}")).
  - exists (Url.mkParseResult "http" "example.com").
    split; [reflexivity|]. split; [discriminate|].
    left. split; [discriminate | reflexivity].
  - reflexivity.
  - left. reflexivity.
  - reflexivity.
Defined.

Lemma empty_text_is_fetch_failed_witness :
  Soup.get_text " " true Sample.empty_page = "" /\
  Sample.serving Sample.empty_page (Some "http://example.com") = Returns fetch_failed.
Proof.
  split; [reflexivity|].
  apply (empty_text_is_fetch_failed
           (Sample.serve "text/html; charset=utf-8" Sample.hello_html)
           (Sample.parses_to Sample.empty_page) Sample.urljoin
           Sample.no_check Sample.no_check
           "http://example.com" "http://example.com"
           (mkResponse 200 [("Content-Type", "text/html; charset=utf-8")]
              Sample.hello_html)).
  - exists (Url.mkParseResult "http" "example.com").
    split; [reflexivity|]. split; [discriminate|].
    left. split; [discriminate | reflexivity].
  - reflexivity.
  - left. reflexivity.
  - reflexivity.
  - right. exists Sample.empty_page, Sample.empty_page.
    split; [reflexivity|]. split; reflexivity.
Defined.

(** A link written [page.html] and an image written [pic.png] come back as
    they are written, and neither has a scheme or a host. *)
Lemma relative_link_stays_relative :
  Sample.fetching Sample.relative_refs "http://example.com"
    = Returns (Some "next [page.html] [Image] [pic.png]",
               ["page.html"], ["pic.png"]) /\
  is_absolute Sample.no_check Sample.no_check "page.html" = false /\
  is_absolute Sample.no_check Sample.no_check "pic.png" = false.
Proof. repeat split. Defined.

Lemma links_and_images_are_resolved_witness :
  fetch_body (Sample.serve "text/html; charset=utf-8" Sample.hello_html)
    (Sample.parses_to Sample.hello) Sample.urljoin "http://ex.com"
    = Returns (Some "Hello World [http://ex.com/w]", ["http://ex.com/w"], []) /\
  exists r soup,
    Sample.serve "text/html; charset=utf-8" Sample.hello_html "http://ex.com"
      = Returns r /\
    Sample.parses_to Sample.hello (text r) = Returns soup /\
    Sample.fetching Sample.hello "http://ex.com"
      = Returns (Some "Hello World [http://ex.com/w]", ["http://ex.com/w"], []) /\
    Forall2 (resolves_to Sample.urljoin "http://ex.com" "href")
      (Soup.find_all "a" "href" soup) ["http://ex.com/w"] /\
    Forall2 (resolves_to Sample.urljoin "http://ex.com" "src")
      (Soup.find_all "img" "src" soup) [].
Proof.
  split; [reflexivity|].
  apply (links_and_images_are_resolved
           (Sample.serve "text/html; charset=utf-8" Sample.hello_html)
           (Sample.parses_to Sample.hello) Sample.urljoin "http://ex.com").
  reflexivity.
Defined.

(** [<a href="/x"><b>Hello</b> world</a>]: the inner text, trimmed, is
    "Hello world"; the anchor is replaced by "Helloworld [...]". *)
Lemma anchor_text_loses_inner_spaces :
  In ([0%nat], Sample.two_strings)
     (Soup.find_all "a" "href" (Sample.document [Sample.two_strings])) /\
  trimmed_inner_text Sample.two_strings = "Hello world" /\
  replace_each (link_replacement Sample.urljoin "http://example.com")
    (Soup.find_all "a" "href" (Sample.document [Sample.two_strings]))
    (Sample.document [Sample.two_strings])
    = Returns (Sample.document
                 [Soup.NavigableString "Helloworld [http://example.com/x]"]) /\
  "Helloworld [http://example.com/x]"
    <> trimmed_inner_text Sample.two_strings ++ " [http://example.com/x]".
Proof.
  split; [left; reflexivity|]. split; [reflexivity|]. split; [reflexivity|].
  vm_compute. discriminate.
Defined.

Lemma anchors_are_annotated_witness :
  let soup' :=
    Sample.document [Soup.Tag "html" [] [Soup.Tag "body" [] [Soup.Tag "p" []
      [Soup.NavigableString "Hello ";
       Soup.NavigableString "World [http://ex.com/w]"]]]] in
  let link := Soup.Tag "a" [("href", "/w")] [Soup.NavigableString "World"] in
  exists href resolved,
    Soup.getitem link "href" = Returns href /\
    (if PyStr.startswith href "/"
     then Sample.urljoin "http://ex.com" href = Returns resolved
     else resolved = href) /\
    let link_text := Soup.get_text "" true link in
    let s := if PyStr.truthy link_text
             then link_text ++ " [" ++ resolved ++ "]"
             else "[" ++ resolved ++ "]" in
    link_replacement Sample.urljoin "http://ex.com" link = Returns s /\
    (forall x, Soup.strings link = [x] -> link_text = trimmed_inner_text link) /\
    (outermost (Soup.find_all "a" "href" Sample.hello) [0; 0; 0; 1]%nat ->
       node_at [0; 0; 0; 1]%nat soup' = Some (Soup.NavigableString s)).
Proof.
  apply (anchors_are_annotated Sample.urljoin "http://ex.com" Sample.hello).
  - reflexivity.
  - left. reflexivity.
Defined.

(** [<a href="/x"><img src="/y.png" alt="cap"></a>]: the image is in the
    document and in [images], and it goes away with the anchor: no
    "[Image: cap]" is put in its place or anywhere in the text. *)
Lemma linked_image_is_not_annotated :
  In ([0; 0]%nat, Soup.Tag "img" [("src", "/y.png"); ("alt", "cap")] [])
     (Soup.find_all "img" "src" Sample.linked_image) /\
  annotate Sample.urljoin "http://example.com" Sample.linked_image
    = Returns (Sample.document [Soup.NavigableString "[http://example.com/x]"]) /\
  node_at [0; 0]%nat
    (Sample.document [Soup.NavigableString "[http://example.com/x]"]) = None /\
  Sample.fetching Sample.linked_image "http://example.com"
    = Returns (Some "[http://example.com/x]",
               ["http://example.com/x"], ["http://example.com/y.png"]).
Proof.
  split; [left; reflexivity|]. repeat split.
Defined.

Lemma images_are_annotated_witness :
  annotate Sample.urljoin "http://ex.com" Sample.two_images
    = Returns (Sample.document
                 [Soup.Tag "p" [] [Soup.NavigableString "See"];
                  Soup.NavigableString "[Image: cap] [http://ex.com/y.png]";
                  Soup.NavigableString "[Image] [z.png]"]) /\
  exists soup1,
    replace_each (link_replacement Sample.urljoin "http://ex.com")
      (Soup.find_all "a" "href" Sample.two_images) Sample.two_images
      = Returns soup1 /\
    forall p img, In (p, img) (Soup.find_all "img" "src" soup1) ->
      exists src resolved,
        Soup.getitem img "src" = Returns src /\
        (if PyStr.startswith src "/"
         then Sample.urljoin "http://ex.com" src = Returns resolved
         else resolved = src) /\
        let alt_text := PyStr.strip (Soup.get img "alt" "") in
        let s := if PyStr.truthy alt_text
                 then "[Image: " ++ alt_text ++ "] [" ++ resolved ++ "]"
                 else "[Image] [" ++ resolved ++ "]" in
        img_replacement Sample.urljoin "http://ex.com" img = Returns s /\
        (outermost (Soup.find_all "img" "src" soup1) p ->
           node_at p
             (Sample.document
                [Soup.Tag "p" [] [Soup.NavigableString "See"];
                 Soup.NavigableString "[Image: cap] [http://ex.com/y.png]";
                 Soup.NavigableString "[Image] [z.png]"])
           = Some (Soup.NavigableString s)).
Proof.
  split; [reflexivity|].
  apply (images_are_annotated Sample.urljoin "http://ex.com" Sample.two_images).
  reflexivity.
Defined.

Lemma estimateTokenCount_is_rounded_average_witness :
  (Z.of_nat (String.length "ab cd") < 2 ^ 45)%Z /\
  estimateTokenCount "ab cd"
    = Float.round_half_even (((5 # 1) / 4 + (2 # 1) / (3 # 4)) / 2)%Q /\
  estimateTokenCount "ab cd" = 2%Z.
Proof.
  split; [reflexivity|].
  destruct (estimateTokenCount_is_rounded_average "ab cd") as (_ & H & _);
    [reflexivity|].
  split; [exact H | reflexivity].
Defined.

(** * Further properties of the endpoint *)

Section Responses.

Variable requests_get : string -> outcome Response.
Variable html_parser : string -> outcome Soup.node.
Variable urljoin : string -> string -> outcome string.
Variable check_bracketed_netloc : string -> option string.
Variable checknetloc : string -> option string.

Notation urlparse := (Url.urlparse check_bracketed_netloc checknetloc).
Notation fetch := (fetch_webpage_python requests_get html_parser urljoin).
Notation body := (fetch_body requests_get html_parser urljoin).
Notation reply := (respond requests_get html_parser urljoin).
Notation handler :=
  (get_readable_page requests_get html_parser urljoin
     check_bracketed_netloc checknetloc).

Lemma strip_truthy (s : string) :
  PyStr.truthy (PyStr.strip s) = true -> s <> EmptyString.
Proof. intros H ->. discriminate. Qed.

(** What the [try] block returns: no text and no lists, or a text that is
    not blank. *)
Lemma fetch_body_result (url : string) (c : option string) (links images : list string) :
  body url = Returns (c, links, images) ->
  (c = None /\ links = [] /\ images = []) \/
  (exists content, c = Some content /\ PyStr.truthy (PyStr.strip content) = true).
Proof.
  unfold fetch_body. intros H.
  destruct (requests_get url) as [r|e]; [|discriminate]. simpl in H.
  destruct (raise_for_status r) as [[]|e]; [|discriminate]. simpl in H.
  destruct (negb (PyStr.contains "text/html" _)); [discriminate|].
  destruct (negb (PyStr.truthy (text r))).
  { inversion H. left. auto. }
  destruct (html_parser (text r)) as [soup|e]; [|discriminate]. simpl in H.
  destruct (annotate urljoin url soup) as [soup'|e]; [|discriminate]. simpl in H.
  destruct (PyStr.truthy (PyStr.strip (Soup.get_text " " true soup'))) eqn:Ht;
    simpl in H.
  2:{ inversion H. left. auto. }
  destruct (collect urljoin url "href" _) as [ls|e]; [|discriminate]. simpl in H.
  destruct (collect urljoin url "src" _) as [ims|e]; [|discriminate]. simpl in H.
  inversion H. subst. right. eexists. split; [reflexivity | exact Ht].
Qed.

(** X1.  What the fetcher returns is either no text with two empty lists,
    or a text that is not empty: the empty string never comes back, and
    links or images never come without a text. *)
Theorem fetch_result_shape (url : string) (c : option string)
    (links images : list string) :
  fetch_webpage_python requests_get html_parser urljoin url
    = Returns (c, links, images) ->
  (c = None /\ links = [] /\ images = []) \/
  (exists content, c = Some content /\ content <> EmptyString).
Proof.
  unfold fetch_webpage_python. intros H.
  destruct (body url) as [[[c' l'] i']|[m|m|m|m]] eqn:Hb; try discriminate.
  - inversion H. subst.
    destruct (fetch_body_result _ _ _ _ Hb) as [Hn|[content [-> Ht]]]; [left; exact Hn|].
    right. exists content. split; [reflexivity | apply strip_truthy; exact Ht].
  - inversion H. subst. right. eexists. split; [reflexivity | discriminate].
Qed.

Lemma urlparse_raises_value_error (url : string) (e : exception) :
  urlparse url = Raises e -> exists msg, e = ValueError msg.
Proof.
  unfold Url.urlparse.
  destruct (Url.split_scheme _) as [sch rest].
  destruct (PyStr.startswith rest "//"); [|discriminate].
  repeat match goal with
         | |- (if ?b then _ else _) = _ -> _ => destruct b
         | |- match ?o with Some _ => _ | None => _ end = _ -> _ => destruct o
         end; intros H; inversion H; eauto.
Qed.

Lemma fetch_raises_value_error (url : string) (e : exception) :
  fetch url = Raises e ->
  (exists msg, e = ValueError msg) \/ (exists msg, e = BaseException msg).
Proof.
  unfold fetch_webpage_python.
  destruct (body url) as [r|[m|m|m|m]]; intros H; inversion H; eauto.
Qed.

(** X2.  No [RequestException] and no other [Exception] leaves the handler
    as it is: the fetcher turns a [RequestException] into a returned text
    and every other [Exception] into a [ValueError], and the handler adds
    only what [urlparse] raises.  What leaves is a [ValueError], or an
    exception that [except Exception] does not catch. *)
Theorem caught_exceptions_do_not_escape (arg : option string) (e : exception) :
  get_readable_page requests_get html_parser urljoin
    check_bracketed_netloc checknetloc arg = Raises e ->
  (exists msg, e = ValueError msg) \/ (exists msg, e = BaseException msg).
Proof.
  assert (Hr : forall u, reply u = Raises e ->
            (exists msg, e = ValueError msg) \/ (exists msg, e = BaseException msg)).
  { intros u. unfold respond.
    destruct (fetch u) as [[[c l] i]|e'] eqn:E; simpl.
    - destruct c as [[|a s]|]; discriminate.
    - intros H. inversion H. subst. apply (fetch_raises_value_error u). exact E. }
  destruct arg as [[|a s]|]; simpl; try discriminate.
  destruct (urlparse (String a s)) as [p|e'] eqn:E; simpl.
  - repeat match goal with
           | |- (if ?b then _ else _) = _ -> _ => destruct b
           end; try discriminate; apply Hr.
  - intros H. inversion H. subst. left. apply (urlparse_raises_value_error _ _ E).
Qed.

(** An exception that [except Exception] does not catch goes through the
    fetcher and the handler unchanged. *)
Lemma base_exception_goes_through (url u msg : string) :
  fetched_as check_bracketed_netloc checknetloc url u ->
  requests_get u = Raises (BaseException msg) ->
  handler (Some url) = Raises (BaseException msg).
Proof.
  intros Hacc H. rewrite (handler_fetched_as _ _ _ _ _ url u Hacc).
  unfold respond, fetch_webpage_python, fetch_body. rewrite H. reflexivity.
Qed.

(** X3.  The handler answers with one of four things: the two 400 bodies,
    the 500 body, or a 200 page that carries the URL that was fetched, the
    text the fetcher returned for it and the estimate of that text.  The URL
    is the parameter itself or the parameter behind [http://]. *)
Theorem handler_responses (arg : option string) (r : response) :
  handler arg = Returns r ->
  r = url_required \/ r = invalid_url \/ r = fetch_failed \/
  exists url u content links images,
    arg = Some url /\ (u = url \/ u = "http://" ++ url) /\
    fetch u = Returns (Some content, links, images) /\
    r = page u content (estimateTokenCount content).
Proof.
  assert (Hreply : forall url u, (u = url \/ u = "http://" ++ url) ->
            reply u = Returns r ->
            r = fetch_failed \/
            exists content links images,
              fetch u = Returns (Some content, links, images) /\
              r = page u content (estimateTokenCount content)).
  { intros url u _ H. unfold respond in H.
    destruct (fetch u) as [[[c l] i]|e] eqn:Hf; [|discriminate]. simpl in H.
    destruct c as [[|a s]|]; inversion H; subst; auto.
    right. exists (String a s), l, i. auto. }
  destruct arg as [[|a s]|]; simpl; intros H.
  - inversion H. auto.
  - destruct (urlparse (String a s)) as [p|e]; [|discriminate]. simpl in H.
    destruct (negb (PyStr.truthy (Url.scheme p)) || negb (PyStr.truthy (Url.netloc p))).
    + destruct (negb (PyStr.truthy (Url.scheme p)) && PyStr.truthy (Url.netloc p)).
      * destruct (Hreply (String a s) _ (or_intror eq_refl) H)
          as [E|(content & l & i & Hf & E)]; [auto|].
        right. right. right.
        exists (String a s), ("http://" ++ String a s), content, l, i. auto.
      * inversion H. auto.
    + destruct (Hreply (String a s) _ (or_introl eq_refl) H)
        as [E|(content & l & i & Hf & E)]; [auto|].
      right. right. right. exists (String a s), (String a s), content, l, i. auto.
  - inversion H. auto.
Qed.

(** X4.  An exception that is neither a [RequestException] nor a
    [ValueError], raised by the GET or by the parser, leaves the handler as
    a [ValueError] that names the URL and carries the message. *)
Theorem unknown_error_is_wrapped (url u msg : string) :
  fetched_as check_bracketed_netloc checknetloc url u ->
  requests_get u = Raises (OtherException msg) \/
  (exists r, requests_get u = Returns r /\ status_ok r /\
     declares_html r = true /\ text r <> EmptyString /\
     html_parser (text r) = Raises (OtherException msg)) ->
  handler (Some url) =
    Raises (ValueError ("An unknown error occurred while processing " ++ u
                        ++ ": " ++ msg)).
Proof.
  intros Hacc H. rewrite (handler_fetched_as _ _ _ _ _ url u Hacc).
  unfold respond, fetch_webpage_python, fetch_body.
  destruct H as [H|(r & Hget & Hst & Hct & Hne & Hparse)].
  - rewrite H. reflexivity.
  - rewrite Hget. simpl. rewrite (raise_for_status_ok r Hst). simpl.
    unfold declares_html in Hct. rewrite Hct. simpl.
    apply truthy_true in Hne. rewrite Hne. simpl. rewrite Hparse. reflexivity.
Qed.

End Responses.

(** ** More on the URL check *)

Lemma contains_drop (p s : string) (n : nat) :
  PyStr.contains p s = false -> PyStr.contains p (PyStr.drop n s) = false.
Proof.
  revert s. induction n as [|n IH]; intros s H; [destruct s; exact H|].
  destruct s as [|c s]; [exact H|]. simpl. apply IH.
  simpl in H. apply orb_false_iff in H as [_ H]. exact H.
Qed.

Lemma lstrip_c0_drop (s : string) : exists n, Url.lstrip_c0 s = PyStr.drop n s.
Proof.
  induction s as [|c s [n IH]]; [exists 0%nat; reflexivity|]. simpl.
  destruct (Url.c0_control_or_space c); [exists (S n); exact IH | exists 0%nat; reflexivity].
Qed.

Lemma filter_chars_drop (f : ascii -> bool) (s : string) (n : nat) :
  exists m, PyStr.filter_chars f (PyStr.drop n s) = PyStr.drop m (PyStr.filter_chars f s).
Proof.
  revert s. induction n as [|n IH]; intros s.
  - exists 0%nat. destruct s; simpl; [reflexivity|]. destruct (f a); reflexivity.
  - destruct s as [|c s]; [exists 0%nat; reflexivity|]. simpl.
    destruct (IH s) as [m Hm]. destruct (f c); [exists (S m) | exists m]; exact Hm.
Qed.

Lemma drop_drop (n m : nat) (s : string) :
  PyStr.drop n (PyStr.drop m s) = PyStr.drop (m + n) s.
Proof.
  revert s. induction m as [|m IH]; intros s; simpl.
  - destruct s; destruct n; reflexivity.
  - destruct s as [|c s]; [destruct n; reflexivity | apply IH].
Qed.

Lemma split_scheme_drop (s : string) :
  exists sch n, Url.split_scheme s = (sch, PyStr.drop n s).
Proof.
  unfold Url.split_scheme.
  assert (H0 : exists sch n, (EmptyString, s) = (sch, PyStr.drop n s)).
  { exists EmptyString, 0%nat. destruct s; reflexivity. }
  destruct (PyStr.find_char (Ascii.eqb ":") s) as [[|i]|]; try exact H0.
  destruct s as [|c s]; [exact H0|].
  destruct (Url.is_alpha c && _); [|exact H0].
  eexists. exists (S (S i)). reflexivity.
Qed.

Lemma startswith_contains (p s : string) :
  PyStr.startswith s p = true -> PyStr.contains p s = true.
Proof.
  unfold PyStr.startswith. intros H.
  destruct s; cbn [PyStr.contains]; rewrite H; reflexivity.
Qed.


Lemma scheme_char_not_colon (c : ascii) :
  Url.scheme_char c = true -> Ascii.eqb ":" c = false.
Proof. destruct c as [[] [] [] [] [] [] [] []]; vm_compute; congruence. Qed.

Lemma scheme_char_not_unsafe (c : ascii) :
  Url.scheme_char c = true -> negb (Url.unsafe_url_byte c) = true.
Proof. destruct c as [[] [] [] [] [] [] [] []]; vm_compute; congruence. Qed.

Lemma is_alpha_not_c0 (c : ascii) :
  Url.is_alpha c = true -> Url.c0_control_or_space c = false.
Proof. destruct c as [[] [] [] [] [] [] [] []]; vm_compute; congruence. Qed.

Lemma find_char_app (f : ascii -> bool) (s r : string) (c : ascii) :
  PyStr.all_chars (fun d => negb (f d)) s = true -> f c = true ->
  PyStr.find_char f (s ++ String c r) = Some (String.length s).
Proof.
  intros Hs Hc. induction s as [|d s IH]; simpl; [rewrite Hc; reflexivity|].
  simpl in Hs. apply andb_true_iff in Hs as [Hd Hs].
  apply negb_true_iff in Hd. rewrite Hd, (IH Hs). reflexivity.
Qed.

Lemma take_app (s r : string) : PyStr.take (String.length s) (s ++ r) = s.
Proof.
  induction s as [|c s IH]; simpl; [destruct r; reflexivity | rewrite IH; reflexivity].
Qed.

Lemma drop_app (s r : string) : PyStr.drop (String.length s) (s ++ r) = r.
Proof.
  induction s as [|c s IH]; simpl; [destruct r; reflexivity | exact IH].
Qed.

Lemma drop_app_cons (s r : string) (c : ascii) :
  PyStr.drop (S (String.length s)) (s ++ String c r) = r.
Proof.
  induction s as [|d s IH]; simpl; [destruct r; reflexivity | exact IH].
Qed.

(** A run of scheme characters that starts with a letter, followed by a
    colon, is taken as the scheme, in lower case. *)
Lemma split_scheme_found (sch rest : string) :
  (exists c s', sch = String c s' /\ Url.is_alpha c = true) ->
  PyStr.all_chars Url.scheme_char sch = true ->
  Url.split_scheme (sch ++ String ":" rest) = (PyStr.lower sch, rest).
Proof.
  intros (c & s' & -> & Hc) Hall. unfold Url.split_scheme.
  rewrite (find_char_app (Ascii.eqb ":") (String c s') rest ":").
  2:{ apply all_chars_impl with (f := Url.scheme_char); [|exact Hall].
      intros d Hd. rewrite (scheme_char_not_colon d Hd). reflexivity. }
  2:{ reflexivity. }
  cbn [String.length append]. cbv beta iota. rewrite Hc.
  cbn [PyStr.take]. rewrite take_app, Hall. cbn [andb].
  f_equal. exact (drop_app_cons s' rest ":").
Qed.

Lemma splitnetloc_until (nl rest : string) :
  PyStr.all_chars (fun c => negb (Url.netloc_delim c)) nl = true ->
  Url.splitnetloc (nl ++ String "/" rest) = nl.
Proof.
  intros H. unfold Url.splitnetloc.
  rewrite (find_char_app Url.netloc_delim nl rest "/" H eq_refl).
  apply take_app.
Qed.

Lemma host_char_in_netloc (c : ascii) :
  host_char c = true ->
  negb (Url.netloc_delim c) && negb (Url.unsafe_url_byte c) = true.
Proof. destruct c as [[] [] [] [] [] [] [] []]; vm_compute; congruence. Qed.

(** A URL written [scheme://netloc/path]: [urlparse] finds the scheme, in
    lower case, and the netloc, and then applies its checks to the
    netloc. *)
Lemma urlparse_scheme_netloc (check_bracketed_netloc checknetloc : string -> option string)
    (sch nl path : string) :
  (exists c s', sch = String c s' /\ Url.is_alpha c = true) ->
  PyStr.all_chars Url.scheme_char sch = true ->
  PyStr.all_chars
    (fun c => negb (Url.netloc_delim c) && negb (Url.unsafe_url_byte c)) nl = true ->
  Url.urlparse check_bracketed_netloc checknetloc (sch ++ "://" ++ nl ++ "/" ++ path)
  = let lb := PyStr.has_char "[" nl in
    let rb := PyStr.has_char "]" nl in
    if (lb && negb rb) || (rb && negb lb) then
      Raises (ValueError "Invalid IPv6 URL")
    else
      match (if lb && rb then check_bracketed_netloc nl else None) with
      | Some msg => Raises (ValueError msg)
      | None =>
          match (if Url.isascii nl then None else checknetloc nl) with
          | Some msg => Raises (ValueError msg)
          | None => Returns (Url.mkParseResult (PyStr.lower sch) nl)
          end
      end.
Proof.
  intros Hfirst Hsch Hnl. unfold Url.urlparse.
  assert (Hstrip : Url.lstrip_c0 (sch ++ "://" ++ nl ++ "/" ++ path)
                   = sch ++ "://" ++ nl ++ "/" ++ path).
  { destruct Hfirst as (c & s' & -> & Hc). simpl.
    rewrite (is_alpha_not_c0 c Hc). reflexivity. }
  rewrite Hstrip. clear Hstrip.
  set (safe := fun c => negb (Url.unsafe_url_byte c)).
  assert (Hf : PyStr.filter_chars safe (sch ++ "://" ++ nl ++ "/" ++ path)
               = sch ++ String ":" ("//" ++ nl ++ String "/" (PyStr.filter_chars safe path))).
  { rewrite filter_chars_app.
    rewrite (filter_chars_all safe sch).
    2:{ apply all_chars_impl with (f := Url.scheme_char); [|exact Hsch].
        exact scheme_char_not_unsafe. }
    f_equal.
    change ("://" ++ nl ++ "/" ++ path)
      with (String ":" (String "/" (String "/" (nl ++ String "/" path)))).
    cbn [PyStr.filter_chars]. change (safe ":"%char) with true.
    change (safe "/"%char) with true. cbv iota.
    rewrite filter_chars_app. cbn [PyStr.filter_chars].
    change (safe "/"%char) with true. cbv iota.
    rewrite (filter_chars_all safe nl); [reflexivity|].
    apply all_chars_impl with (2 := Hnl).
    intros d Hd. apply andb_true_iff in Hd as [_ Hd]. exact Hd. }
  rewrite Hf. clear Hf.
  rewrite (split_scheme_found sch _ Hfirst Hsch).
  set (rest := PyStr.filter_chars safe path).
  assert (Hpre : PyStr.startswith ("//" ++ nl ++ String "/" rest) "//" = true).
  { unfold PyStr.startswith. simpl. destruct (nl ++ String "/" rest); reflexivity. }
  rewrite Hpre.
  change (PyStr.drop 2 ("//" ++ nl ++ String "/" rest)) with (nl ++ String "/" rest).
  rewrite splitnetloc_until; [reflexivity|].
  apply all_chars_impl with (2 := Hnl).
  intros d Hd. apply andb_true_iff in Hd as [Hd _]. exact Hd.
Qed.

Section UrlCheck.

Variable requests_get : string -> outcome Response.
Variable html_parser : string -> outcome Soup.node.
Variable urljoin : string -> string -> outcome string.
Variable check_bracketed_netloc : string -> option string.
Variable checknetloc : string -> option string.

Notation urlparse := (Url.urlparse check_bracketed_netloc checknetloc).
Notation reply := (respond requests_get html_parser urljoin).
Notation handler :=
  (get_readable_page requests_get html_parser urljoin
     check_bracketed_netloc checknetloc).

(** X5.  A parameter without two slashes in a row, tabs and line breaks
    left aside as [urlparse] does, has no netloc: whatever its scheme, the
    answer is the invalid-format 400 and nothing is fetched. *)
Theorem no_double_slash_is_rejected (url : string) :
  url <> EmptyString ->
  PyStr.contains "//"
    (PyStr.filter_chars (fun c => negb (Url.unsafe_url_byte c)) url) = false ->
  (exists sch, urlparse url = Returns (Url.mkParseResult sch EmptyString)) /\
  handler (Some url) = Returns invalid_url.
Proof.
  intros Hne Hno.
  assert (Hp : exists sch, urlparse url = Returns (Url.mkParseResult sch EmptyString)).
  { unfold Url.urlparse.
    destruct (lstrip_c0_drop url) as [n Hn]. rewrite Hn.
    destruct (filter_chars_drop (fun c => negb (Url.unsafe_url_byte c)) url n)
      as [m Hm]. rewrite Hm.
    destruct (split_scheme_drop
                (PyStr.drop m (PyStr.filter_chars
                                 (fun c => negb (Url.unsafe_url_byte c)) url)))
      as (sch & k & Hk). rewrite Hk. rewrite drop_drop.
    destruct (PyStr.startswith _ "//") eqn:E.
    - apply startswith_contains in E.
      rewrite (contains_drop _ _ (m + k) Hno) in E. discriminate.
    - exists sch. reflexivity. }
  split; [exact Hp|]. destruct Hp as [sch Hp].
  apply (handler_no_netloc _ _ _ _ _ url (Url.mkParseResult sch EmptyString));
    [exact Hne | exact Hp | reflexivity].
Qed.


(** X6.  A URL written [scheme://host/path] is taken as it is, whatever the
    scheme and whatever the letter case of the scheme: the fetcher is
    called with the parameter unchanged. *)
Theorem full_url_is_fetched_unchanged (sch host path : string) :
  (exists c s', sch = String c s' /\ Url.is_alpha c = true) ->
  PyStr.all_chars Url.scheme_char sch = true ->
  host_only host = true ->
  urlparse (sch ++ "://" ++ host ++ "/" ++ path)
    = Returns (Url.mkParseResult (PyStr.lower sch) host) /\
  handler (Some (sch ++ "://" ++ host ++ "/" ++ path))
    = reply (sch ++ "://" ++ host ++ "/" ++ path).
Proof.
  intros Hfirst Hsch Hhost. unfold host_only in Hhost.
  apply andb_true_iff in Hhost as [Hne Hall].
  assert (Hp : urlparse (sch ++ "://" ++ host ++ "/" ++ path)
               = Returns (Url.mkParseResult (PyStr.lower sch) host)).
  { rewrite urlparse_scheme_netloc; [|exact Hfirst|exact Hsch|].
    2:{ apply all_chars_impl with (2 := Hall). exact host_char_in_netloc. }
    cbv zeta. rewrite !has_char_none.
    - simpl.
      assert (Ha : Url.isascii host = true).
      { apply all_chars_impl with (2 := Hall). exact host_char_ascii. }
      rewrite Ha. reflexivity.
    - apply all_chars_impl with (2 := Hall).
      intros d Hd. destruct (host_char_not_bracket d Hd) as [_ E]. rewrite E. reflexivity.
    - apply all_chars_impl with (2 := Hall).
      intros d Hd. destruct (host_char_not_bracket d Hd) as [E _]. rewrite E. reflexivity. }
  split; [exact Hp|].
  apply handler_fetched_as. eexists. split; [exact Hp|].
  split; [apply truthy_true; exact Hne|].
  left. split; [|reflexivity].
  destruct Hfirst as (c & s' & -> & _). discriminate.
Qed.

(** What the handler makes of a parameter that starts with two slashes,
    [http://] in front of it, has no netloc: it is a URL without a host. *)
Lemma prefixed_url_has_no_netloc (rest : string) :
  urlparse ("http://" ++ "//" ++ rest)
    = Returns (Url.mkParseResult "http" EmptyString).
Proof.
  change ("http://" ++ "//" ++ rest) with ("http" ++ "://" ++ "" ++ "/" ++ "/" ++ rest).
  rewrite urlparse_scheme_netloc; [reflexivity | | reflexivity | reflexivity].
  exists "h"%char, "ttp". split; reflexivity.
Qed.

(** X7.  An opening bracket in the host that is never closed makes
    [urlparse] raise, and the handler with it, before anything is fetched:
    the answer is neither of the 400 bodies. *)
Theorem unclosed_bracket_raises (sch host path : string) :
  (exists c s', sch = String c s' /\ Url.is_alpha c = true) ->
  PyStr.all_chars Url.scheme_char sch = true ->
  PyStr.all_chars host_char host = true ->
  handler (Some (sch ++ "://[" ++ host ++ "/" ++ path))
    = Raises (ValueError "Invalid IPv6 URL").
Proof.
  intros Hfirst Hsch Hall.
  assert (Hp : urlparse (sch ++ "://" ++ String "[" host ++ "/" ++ path)
               = Raises (ValueError "Invalid IPv6 URL")).
  { rewrite urlparse_scheme_netloc; [|exact Hfirst|exact Hsch|].
    2:{ cbn [PyStr.all_chars]. apply andb_true_iff. split; [reflexivity|].
        apply all_chars_impl with (2 := Hall). exact host_char_in_netloc. }
    cbv zeta. cbn [PyStr.has_char]. change (Ascii.eqb "[" "[") with true.
    change (Ascii.eqb "]" "[") with false. cbn [orb].
    rewrite has_char_none; [reflexivity|].
    apply all_chars_impl with (2 := Hall).
    intros d Hd. destruct (host_char_not_bracket d Hd) as [_ E]. rewrite E. reflexivity. }
  change (sch ++ "://[" ++ host ++ "/" ++ path)
    with (sch ++ "://" ++ String "[" host ++ "/" ++ path).
  destruct Hfirst as (c & s' & -> & Hc).
  change (String c s' ++ "://" ++ String "[" host ++ "/" ++ path)
    with (String c (s' ++ "://" ++ String "[" host ++ "/" ++ path)) in *.
  unfold get_readable_page. rewrite Hp. reflexivity.
Qed.

End UrlCheck.

Local Open Scope list_scope.

(** ** The loop as one pass *)

Lemma update_nth_ext {A : Type} (f g : A -> A) (i : nat) (l : list A) :
  (forall x, f x = g x) -> Soup.update_nth i f l = Soup.update_nth i g l.
Proof.
  intros H. revert i. induction l as [|x l IH]; intros [|i]; simpl;
    try reflexivity; [rewrite H | rewrite IH]; reflexivity.
Qed.

Lemma update_nth_compose {A : Type} (f g : A -> A) (i : nat) (l : list A) :
  Soup.update_nth i f (Soup.update_nth i g l) = Soup.update_nth i (fun x => f (g x)) l.
Proof.
  revert i. induction l as [|x l IH]; intros [|i]; simpl; try reflexivity.
  rewrite IH. reflexivity.
Qed.

Lemma update_nth_app {A : Type} (f : A -> A) (pre : list A) (x : A) (l : list A) :
  Soup.update_nth (List.length pre) f (pre ++ x :: l) = pre ++ f x :: l.
Proof.
  induction pre as [|y pre IH]; simpl; [reflexivity | rewrite IH; reflexivity].
Qed.

Lemma update_at_ext (p : Soup.path) (f g : Soup.node -> Soup.node) :
  (forall x, f x = g x) -> forall n, update_at p f n = update_at p g n.
Proof.
  intros H. induction p as [|i p IH]; intros n; simpl; [apply H|].
  destruct n as [s|s|nm attrs cs]; try reflexivity.
  rewrite (update_nth_ext _ _ i cs IH). reflexivity.
Qed.

Lemma update_at_compose (p : Soup.path) (f g : Soup.node -> Soup.node) :
  forall n, update_at p f (update_at p g n) = update_at p (fun x => f (g x)) n.
Proof.
  induction p as [|i p IH]; intros n; simpl; [reflexivity|].
  destruct n as [s|s|nm attrs cs]; try reflexivity.
  rewrite update_nth_compose, (update_nth_ext _ _ i cs IH). reflexivity.
Qed.

Lemma update_nth_id {A : Type} (i : nat) (l : list A) :
  Soup.update_nth i (fun x => x) l = l.
Proof.
  revert i. induction l as [|x l IH]; intros [|i]; simpl; try reflexivity.
  rewrite IH. reflexivity.
Qed.

Lemma update_at_id (p : Soup.path) : forall n, update_at p (fun x => x) n = n.
Proof.
  induction p as [|i p IH]; intros n; simpl; [reflexivity|].
  destruct n as [s|s|nm attrs cs]; try reflexivity.
  rewrite (update_nth_ext _ _ i cs IH), update_nth_id. reflexivity.
Qed.

(** Replacing below [p] is a change of the subtree at [p]. *)
Lemma replace_with_app (p d : Soup.path) (s : string) :
  forall n, Soup.replace_with (p ++ d) s n = update_at p (Soup.replace_with d s) n.
Proof.
  induction p as [|i p IH]; intros n; simpl; [reflexivity|].
  destruct n as [x|x|nm attrs cs]; try reflexivity.
  rewrite (update_nth_ext _ _ i cs IH). reflexivity.
Qed.

Lemma replace_all_shift (g : Soup.node -> string) (p : Soup.path)
    (l : list (Soup.path * Soup.node)) :
  forall n, replace_all g (map (shift p) l) n = update_at p (replace_all g l) n.
Proof.
  induction l as [|[d el] l IH]; intros n.
  - simpl. symmetry. apply update_at_id.
  - unfold replace_all in *. simpl. rewrite IH, replace_with_app, update_at_compose.
    apply update_at_ext. intros x. reflexivity.
Qed.

Lemma replace_all_app (g : Soup.node -> string) (l1 l2 : list (Soup.path * Soup.node))
    (n : Soup.node) :
  replace_all g (l1 ++ l2) n = replace_all g l2 (replace_all g l1 n).
Proof. unfold replace_all. apply fold_left_app. Qed.

Lemma walk_children_shift (p : Soup.path) (cs : list Soup.node) :
  Forall (fun c => forall q, Soup.walk q c = map (shift q) (Soup.walk [] c)) cs ->
  forall i, walk_children p i cs = map (shift p) (walk_children [] i cs).
Proof.
  induction 1 as [|c cs Hc _ IH]; intros i; simpl; [reflexivity|].
  rewrite map_app, IH. f_equal.
  rewrite (Hc (p ++ [i])), (Hc [i]), map_map.
  apply map_ext. intros [q el]. unfold shift. simpl. rewrite <- app_assoc. reflexivity.
Qed.

Lemma walk_shift (n : Soup.node) :
  forall p, Soup.walk p n = map (shift p) (Soup.walk [] n).
Proof.
  induction n as [s|s|nm attrs cs IH] using node_forall_ind; intros p.
  - simpl. unfold shift. simpl. rewrite app_nil_r. reflexivity.
  - simpl. unfold shift. simpl. rewrite app_nil_r. reflexivity.
  - rewrite !walk_tag. simpl. unfold shift at 1. simpl. rewrite app_nil_r.
    f_equal. apply walk_children_shift. exact IH.
Qed.

Lemma filter_shift (f : Soup.node -> bool) (p : Soup.path)
    (l : list (Soup.path * Soup.node)) :
  filter (fun el => f (snd el)) (map (shift p) l)
    = map (shift p) (filter (fun el => f (snd el)) l).
Proof.
  induction l as [|el l IH]; simpl; [reflexivity|].
  destruct (f (snd el)); simpl; rewrite IH; reflexivity.
Qed.

(** Below a string nothing is replaced. *)
Lemma replace_all_string (g : Soup.node -> string) (x : string)
    (l : list (Soup.path * Soup.node)) :
  Forall (fun el => fst el <> []) l ->
  replace_all g l (Soup.NavigableString x) = Soup.NavigableString x.
Proof.
  induction 1 as [|[q el] l Hq _ IH]; [reflexivity|].
  unfold replace_all in *. simpl. destruct q as [|i q]; [contradiction Hq; reflexivity|].
  simpl. exact IH.
Qed.

Section OnePass.

Variables name attr : string.
Variable g : Soup.node -> string.

Let found (l : list (Soup.path * Soup.node)) :=
  filter (fun el => Soup.matches name attr (snd el)) l.

Lemma replace_all_children (nm : string) (attrs : list (string * string))
    (cs : list Soup.node) :
  Forall (fun c => replace_all g (found (Soup.walk [] c)) c = substitute name attr g c) cs ->
  forall pre,
    replace_all g (found (walk_children [] (List.length pre) cs)) (Soup.Tag nm attrs (pre ++ cs))
    = Soup.Tag nm attrs (pre ++ map (substitute name attr g) cs).
Proof.
  induction 1 as [|c cs Hc _ IH]; intros pre; [reflexivity|].
  unfold found in *. cbn [walk_children app map].
  rewrite filter_app, replace_all_app, (walk_shift c [List.length pre]).
  rewrite filter_shift, replace_all_shift.
  cbn [update_at]. rewrite update_nth_app. rewrite Hc.
  specialize (IH (pre ++ [substitute name attr g c])).
  rewrite List.length_app, Nat.add_1_r, <- !app_assoc in IH. exact IH.
Qed.

Lemma replace_all_walk (n : Soup.node) :
  replace_all g (found (Soup.walk [] n)) n = substitute name attr g n.
Proof.
  induction n as [s|s|nm attrs cs IH] using node_forall_ind; try reflexivity.
  rewrite walk_tag. unfold found. cbn [filter snd substitute].
  destruct (Soup.matches name attr (Soup.Tag nm attrs cs)).
  - unfold replace_all. simpl. apply replace_all_string.
    apply Forall_forall. intros [q el] Hin Hq. simpl in Hq. subst q.
    apply filter_In in Hin as [Hin _].
    destruct (walk_children_paths _ _ _ _ _ Hin) as (k & d & _ & E). discriminate.
  - apply (replace_all_children nm attrs cs IH []).
Qed.

End OnePass.

Lemma replace_each_all (replacement : Soup.node -> outcome string)
    (found : list (Soup.path * Soup.node)) :
  (forall p el, In (p, el) found -> exists s, replacement el = Returns s) ->
  forall root,
    replace_each replacement found root
    = Returns (replace_all (fun el => returned (replacement el)) found root).
Proof.
  induction found as [|[p el] found IH]; intros Hall root; [reflexivity|].
  destruct (Hall p el (or_introl eq_refl)) as [s Hs].
  cbn [replace_each]. rewrite Hs. cbn [bind]. rewrite IH.
  - unfold replace_all. cbn [fold_left fst snd]. rewrite Hs. reflexivity.
  - intros q el' Hin. apply (Hall q el'). right. exact Hin.
Qed.

(** The loop over what [find_all] returns, when no replacement raises, is
    the one pass over the tree. *)
Lemma replace_each_substitute (replacement : Soup.node -> outcome string)
    (name attr : string) (root : Soup.node) :
  (forall p el, In (p, el) (Soup.find_all name attr root) ->
     exists s, replacement el = Returns s) ->
  replace_each replacement (Soup.find_all name attr root) root
  = Returns (substitute_in name attr (fun el => returned (replacement el)) root).
Proof.
  intros Hall. rewrite (replace_each_all _ _ Hall). f_equal.
  unfold Soup.find_all, Soup.descendants.
  destruct root as [s|s|nm attrs cs]; try reflexivity.
  rewrite walk_tag. cbn [tl].
  pose proof (replace_all_children name attr (fun el => returned (replacement el))
                nm attrs cs) as H.
  apply (H (proj2 (Forall_forall _ cs)
              (fun c _ => replace_all_walk name attr _ c)) []).
Qed.

Lemma replace_each_returned (replacement : Soup.node -> outcome string)
    (found : list (Soup.path * Soup.node)) :
  forall soup soup', replace_each replacement found soup = Returns soup' ->
    forall p el, In (p, el) found -> exists s, replacement el = Returns s.
Proof.
  induction found as [|[q el0] found IH]; intros soup soup' H p el Hin; [destruct Hin|].
  simpl in H. destruct (replacement el0) as [s|e] eqn:Hs; [|discriminate].
  destruct Hin as [E|Hin]; [inversion E; subst; eauto|].
  apply (IH _ _ H p el Hin).
Qed.

Lemma matches_tag (name attr nm : string) (attrs : list (string * string))
    (cs cs' : list Soup.node) :
  Soup.matches name attr (Soup.Tag nm attrs cs)
    = Soup.matches name attr (Soup.Tag nm attrs cs').
Proof. reflexivity. Qed.

Section NothingLeft.

Variables name attr : string.
Variable g : Soup.node -> string.

Lemma walk_substitute_none (n : Soup.node) :
  forall p, filter (fun el => Soup.matches name attr (snd el))
              (Soup.walk p (substitute name attr g n)) = [].
Proof.
  induction n as [s|s|nm attrs cs IH] using node_forall_ind; intros p;
    try reflexivity.
  cbn [substitute].
  destruct (Soup.matches name attr (Soup.Tag nm attrs cs)) eqn:Hm; [reflexivity|].
  rewrite walk_tag. cbn [filter snd].
  rewrite (matches_tag name attr nm attrs _ cs), Hm.
  generalize 0%nat. induction IH as [|c cs' Hc _ IHcs]; intros i; [reflexivity|].
  cbn [map walk_children]. rewrite filter_app, Hc. apply IHcs.
  simpl in Hm. exact Hm.
Qed.

Lemma find_all_substitute_in (root : Soup.node) :
  Soup.find_all name attr (substitute_in name attr g root) = [].
Proof.
  unfold Soup.find_all, Soup.descendants.
  destruct root as [s|s|nm attrs cs]; try reflexivity.
  cbn [substitute_in]. rewrite walk_tag. cbn [tl].
  generalize 0%nat. induction cs as [|c cs IH]; intros i; [reflexivity|].
  cbn [map walk_children]. rewrite filter_app, walk_substitute_none. apply IH.
Qed.

Lemma node_at_app (p d : Soup.path) :
  forall n, node_at (p ++ d) n
            = match node_at p n with Some m => node_at d m | None => None end.
Proof.
  induction p as [|i p IH]; intros n; simpl; [reflexivity|].
  destruct n as [s|s|nm attrs cs]; try reflexivity.
  destruct (nth_error cs i); [apply IH | reflexivity].
Qed.

(** Where a matching tag was, the pass leaves a string or nothing. *)
Lemma node_at_substitute (p : Soup.path) :
  forall n el, node_at p n = Some el -> Soup.matches name attr el = true ->
    node_at p (substitute name attr g n) = None \/
    exists s, node_at p (substitute name attr g n) = Some (Soup.NavigableString s).
Proof.
  induction p as [|i p IH]; intros n el Hat Hm.
  - simpl in Hat. inversion Hat. subst el.
    destruct n as [s|s|nm attrs cs]; try discriminate.
    cbn [substitute]. rewrite Hm. right. eexists. reflexivity.
  - destruct n as [s|s|nm attrs cs]; try discriminate.
    cbn [substitute]. destruct (Soup.matches name attr (Soup.Tag nm attrs cs)).
    + left. reflexivity.
    + simpl in *. rewrite nth_error_map.
      destruct (nth_error cs i) as [c|]; [|discriminate]. simpl.
      apply (IH c el Hat Hm).
Qed.

Lemma node_at_substitute_in (p : Soup.path) (root el : Soup.node) :
  p <> [] -> node_at p root = Some el -> Soup.matches name attr el = true ->
  node_at p (substitute_in name attr g root) = None \/
  exists s, node_at p (substitute_in name attr g root) = Some (Soup.NavigableString s).
Proof.
  intros Hp Hat Hm. destruct p as [|i p]; [contradiction Hp; reflexivity|].
  destruct root as [s|s|nm attrs cs]; try discriminate.
  simpl in *. rewrite nth_error_map.
  destruct (nth_error cs i) as [c|]; [|discriminate]. simpl.
  apply (node_at_substitute p c el Hat Hm).
Qed.

End NothingLeft.

Lemma find_all_path_nonempty (name attr : string) (root : Soup.node)
    (p : Soup.path) (el : Soup.node) :
  In (p, el) (Soup.find_all name attr root) -> p <> [].
Proof.
  unfold Soup.find_all, Soup.descendants. intros H.
  apply filter_In in H as [H _].
  destruct root as [s|s|nm attrs cs]; try (destruct H).
  rewrite walk_tag in H. cbn [tl] in H.
  destruct (walk_children_paths _ _ _ _ _ H) as (k & d & _ & ->). discriminate.
Qed.

Local Open Scope string_scope.

Section Passes.

Variable urljoin : string -> string -> outcome string.

(** X8.  When no replacement raises, the two loops are two passes over the
    tree: every anchor with an [href] becomes its string, then every image
    with a [src] that is left becomes its string, and nothing else
    changes. *)
Theorem annotate_is_two_passes (url : string) (soup : Soup.node) :
  let link_string := fun el => returned (link_replacement urljoin url el) in
  let img_string := fun el => returned (img_replacement urljoin url el) in
  let soup1 := substitute_in "a" "href" link_string soup in
  (forall p el, In (p, el) (Soup.find_all "a" "href" soup) ->
     exists s, link_replacement urljoin url el = Returns s) ->
  (forall p el, In (p, el) (Soup.find_all "img" "src" soup1) ->
     exists s, img_replacement urljoin url el = Returns s) ->
  annotate urljoin url soup = Returns (substitute_in "img" "src" img_string soup1).
Proof.
  intros link_string img_string soup1 Hl Hi. unfold annotate.
  rewrite (replace_each_substitute _ _ _ _ Hl). cbn [bind].
  apply (replace_each_substitute _ _ _ _ Hi).
Qed.

(** X9.  A loop that went through has replaced every tag it was after:
    [find_all] finds none of them in the soup it leaves.  After the link
    loop there is no anchor with an [href], after the image loop no image
    with a [src]. *)
Theorem nothing_left_to_replace (url : string) (soup soup' : Soup.node) :
  annotate urljoin url soup = Returns soup' ->
  exists soup1,
    replace_each (link_replacement urljoin url)
      (Soup.find_all "a" "href" soup) soup = Returns soup1 /\
    Soup.find_all "a" "href" soup1 = [] /\
    Soup.find_all "img" "src" soup' = [].
Proof.
  unfold annotate. intros H.
  destruct (replace_each (link_replacement urljoin url) _ soup) as [soup1|e] eqn:Hl;
    [|discriminate].
  cbn [bind] in H. exists soup1. split; [reflexivity|].
  pose proof (replace_each_returned _ _ _ _ Hl) as Rl.
  pose proof (replace_each_returned _ _ _ _ H) as Ri.
  rewrite (replace_each_substitute _ _ _ _ Rl) in Hl. inversion Hl. subst soup1.
  rewrite (replace_each_substitute _ _ _ _ Ri) in H. inversion H. subst soup'.
  split; apply find_all_substitute_in.
Qed.

(** X10.  The image loop never meets an image that lies inside an anchor
    with an [href]: what it finds is not at or below the place of any
    anchor the link loop was given. *)
Theorem images_inside_links_are_skipped (url : string) (soup soup1 : Soup.node)
    (p q : Soup.path) (link img : Soup.node) :
  replace_each (link_replacement urljoin url)
    (Soup.find_all "a" "href" soup) soup = Returns soup1 ->
  In (p, link) (Soup.find_all "a" "href" soup) ->
  In (q, img) (Soup.find_all "img" "src" soup1) ->
  ~ is_prefix p q.
Proof.
  intros Hl Hp Hq [d ->].
  pose proof (replace_each_returned _ _ _ _ Hl) as Rl.
  rewrite (replace_each_substitute _ _ _ _ Rl) in Hl. inversion Hl. subst soup1.
  destruct (find_all_node_at _ _ _ _ _ Hp) as [Hat Hm].
  destruct (find_all_node_at _ _ _ _ _ Hq) as [Hat' Hm'].
  rewrite node_at_app in Hat'.
  destruct (node_at_substitute_in "a" "href"
              (fun el => returned (link_replacement urljoin url el)) p soup link
              (find_all_path_nonempty _ _ _ _ _ Hp) Hat Hm) as [E|[s E]];
    rewrite E in Hat'; [discriminate|].
  destruct d; simpl in Hat'; [|discriminate].
  inversion Hat'. subst img. discriminate.
Qed.

End Passes.

(** ** Trimmed strings *)

Lemma lstrip_head_clean (s : string) : head_clean (PyStr.lstrip s) = true.
Proof.
  induction s as [|c s IH]; simpl; [reflexivity|].
  destruct (PyStr.isspace c) eqn:E; [exact IH|]. simpl. rewrite E. reflexivity.
Qed.

Lemma lstrip_id (s : string) : head_clean s = true -> PyStr.lstrip s = s.
Proof.
  destruct s as [|c s]; simpl; [reflexivity|].
  intros H. apply negb_true_iff in H. rewrite H. reflexivity.
Qed.

Lemma rstrip_head_clean (s : string) :
  head_clean s = true -> head_clean (PyStr.rstrip s) = true.
Proof.
  destruct s as [|c s]; simpl; [reflexivity|]. intros H.
  destruct (PyStr.rstrip s); [|exact H].
  apply negb_true_iff in H. rewrite H. simpl. rewrite H. reflexivity.
Qed.

Lemma rstrip_idem (s : string) : PyStr.rstrip (PyStr.rstrip s) = PyStr.rstrip s.
Proof.
  induction s as [|c s IH]; simpl; [reflexivity|].
  destruct (PyStr.rstrip s) as [|d r] eqn:E.
  - destruct (PyStr.isspace c) eqn:Hc; simpl; [reflexivity|]. rewrite Hc. reflexivity.
  - cbn [PyStr.rstrip]. cbn [PyStr.rstrip] in IH. 
    destruct (match PyStr.rstrip r with
              | "" => if PyStr.isspace d then "" else String d ""
              | String a s0 => String d (String a s0)
              end) eqn:E2; [discriminate IH|].
    inversion IH. subst. reflexivity.
Qed.

Lemma rstrip_app (x y : string) :
  PyStr.rstrip y <> EmptyString -> PyStr.rstrip (x ++ y) = x ++ PyStr.rstrip y.
Proof.
  intros H. induction x as [|c x IH]; simpl; [reflexivity|].
  rewrite IH. destruct (x ++ PyStr.rstrip y) eqn:E; [|reflexivity].
  exfalso. apply H. destruct x; [exact E | discriminate E].
Qed.

Lemma rstrip_cons (c : ascii) (y : string) :
  PyStr.rstrip y <> EmptyString -> PyStr.rstrip (String c y) = String c (PyStr.rstrip y).
Proof. intros H. apply (rstrip_app (String c EmptyString) y H). Qed.

(** What [strip] returns has no whitespace at either end. *)
Lemma strip_trimmed (s : string) :
  head_clean (PyStr.strip s) = true /\ PyStr.rstrip (PyStr.strip s) = PyStr.strip s.
Proof.
  unfold PyStr.strip. split; [|apply rstrip_idem].
  apply rstrip_head_clean, lstrip_head_clean.
Qed.

Lemma join_cons (sep x y : string) (l : list string) :
  PyStr.join sep (x :: y :: l) = x ++ sep ++ PyStr.join sep (y :: l).
Proof. reflexivity. Qed.

(** Joining trimmed, non-empty pieces with one space gives a trimmed
    string. *)
Lemma join_trimmed (l : list string) :
  Forall (fun x => x <> EmptyString /\ head_clean x = true /\ PyStr.rstrip x = x) l ->
  head_clean (PyStr.join " " l) = true /\
  PyStr.rstrip (PyStr.join " " l) = PyStr.join " " l /\
  (l <> [] -> PyStr.join " " l <> EmptyString).
Proof.
  induction 1 as [|x l (Hne & Hh & Hr) Hl (IHh & IHr & IHne)].
  - repeat split. intros H. contradiction H. reflexivity.
  - destruct l as [|y l].
    + simpl. repeat split; [exact Hh | exact Hr | intros _; exact Hne].
    + rewrite join_cons.
      assert (Hj : PyStr.join " " (y :: l) <> EmptyString) by (apply IHne; discriminate).
      set (j := PyStr.join " " (y :: l)) in *.
      repeat split.
      * destruct x; [contradiction Hne; reflexivity | exact Hh].
      * rewrite rstrip_app.
        -- f_equal. change (" " ++ j) with (String " " j).
           rewrite rstrip_cons; rewrite IHr; [reflexivity | exact Hj].
        -- change (" " ++ j) with (String " " j).
           rewrite rstrip_cons; rewrite IHr; [discriminate | exact Hj].
      * intros _. destruct x; [contradiction Hne; reflexivity | discriminate].
Qed.

(** The text [get_text(separator=' ', strip=True)] extracts is trimmed. *)
Lemma get_text_trimmed (n : Soup.node) :
  PyStr.strip (Soup.get_text " " true n) = Soup.get_text " " true n.
Proof.
  unfold Soup.get_text. cbv beta iota.
  destruct (join_trimmed (filter PyStr.truthy (map PyStr.strip (Soup.strings n))))
    as (Hh & Hr & _).
  - apply Forall_forall. intros x Hx. apply filter_In in Hx as [Hx Ht].
    apply in_map_iff in Hx as (y & <- & _).
    destruct (strip_trimmed y) as [H1 H2].
    split; [apply truthy_true; exact Ht | split; assumption].
  - unfold PyStr.strip at 1. rewrite (lstrip_id _ Hh). exact Hr.
Qed.

Section Content.

Variable requests_get : string -> outcome Response.
Variable html_parser : string -> outcome Soup.node.
Variable urljoin : string -> string -> outcome string.
Variable check_bracketed_netloc : string -> option string.
Variable checknetloc : string -> option string.

Notation fetch := (fetch_webpage_python requests_get html_parser urljoin).
Notation body := (fetch_body requests_get html_parser urljoin).
Notation reply := (respond requests_get html_parser urljoin).
Notation handler :=
  (get_readable_page requests_get html_parser urljoin
     check_bracketed_netloc checknetloc).

(** X11.  The text the fetcher returns has no whitespace at its start or at
    its end: stripping it changes nothing. *)
Theorem fetched_text_is_trimmed (url content : string) (links images : list string) :
  fetch url = Returns (Some content, links, images) ->
  PyStr.strip content = content.
Proof.
  unfold fetch_webpage_python. intros H.
  destruct (body url) as [[[c l] i]|[m|m|m|m]] eqn:Hb; try discriminate.
  - inversion H. subst. clear H. unfold fetch_body in Hb.
    destruct (requests_get url) as [r|e]; [|discriminate]. simpl in Hb.
    destruct (raise_for_status r) as [[]|e]; [|discriminate]. simpl in Hb.
    destruct (negb (PyStr.contains "text/html" _)); [discriminate|].
    destruct (negb (PyStr.truthy (text r))); [discriminate|].
    destruct (html_parser (text r)) as [soup|e]; [|discriminate]. simpl in Hb.
    destruct (annotate urljoin url soup) as [soup'|e]; [|discriminate]. simpl in Hb.
    destruct (negb (PyStr.truthy _)); [discriminate|].
    destruct (collect urljoin url "href" _) as [ls|e]; [|discriminate]. simpl in Hb.
    destruct (collect urljoin url "src" _) as [ims|e]; [|discriminate]. simpl in Hb.
    inversion Hb. apply get_text_trimmed.
  - inversion H. reflexivity.
Qed.

(** X12.  The URL in the annotation of a link is the URL listed for it:
    when the fetch goes through, the anchor at each position of the document
    is replaced by its text followed by the entry of [links] at that
    position, in brackets. *)
Theorem links_match_annotations (url content : string)
    (links images : list string) :
  body url = Returns (Some content, links, images) ->
  exists r soup,
    requests_get url = Returns r /\
    html_parser (text r) = Returns soup /\
    Forall2 (fun el resolved =>
               let link_text := Soup.get_text "" true (snd el) in
               link_replacement urljoin url (snd el)
               = Returns (if PyStr.truthy link_text
                          then link_text ++ " [" ++ resolved ++ "]"
                          else "[" ++ resolved ++ "]"))
            (Soup.find_all "a" "href" soup) links.
Proof.
  intros H. unfold fetch_body in H.
  destruct (requests_get url) as [r|e] eqn:Hr; [|discriminate]. simpl in H.
  destruct (raise_for_status r) as [[]|e]; [|discriminate]. simpl in H.
  destruct (negb (PyStr.contains "text/html" _)); [discriminate|].
  destruct (negb (PyStr.truthy (text r))); [discriminate|].
  destruct (html_parser (text r)) as [soup|e] eqn:Hp; [|discriminate]. simpl in H.
  destruct (annotate urljoin url soup) as [soup'|e]; [|discriminate]. simpl in H.
  destruct (negb (PyStr.truthy _)); [discriminate|].
  destruct (collect urljoin url "href" _) as [ls|e] eqn:Hl; [|discriminate].
  simpl in H.
  destruct (collect urljoin url "src" _) as [ims|e]; [|discriminate].
  simpl in H. inversion H. subst. clear H.
  exists r, soup. split; [reflexivity|]. split; [exact Hp|].
  revert links Hl. generalize (Soup.find_all "a" "href" soup).
  induction l as [|[p el] l IH]; intros links Hl; simpl in Hl.
  - inversion Hl. constructor.
  - destruct (Soup.getitem el "href") as [ref|e] eqn:Hget; [|discriminate]. simpl in Hl.
    destruct (resolve urljoin url ref) as [resolved|e] eqn:Hres; [|discriminate].
    simpl in Hl.
    destruct (collect urljoin url "href" l) as [rest|e]; [|discriminate].
    simpl in Hl. inversion Hl. subst. constructor; [|apply IH; reflexivity].
    cbv zeta. cbn [snd]. unfold link_replacement. rewrite Hget. cbn [bind].
    rewrite Hres. cbn [bind].
    destruct (PyStr.truthy (Soup.get_text "" true el)); reflexivity.
Qed.

End Content.

(** ** The whole request *)

Section Page.

Variable requests_get : string -> outcome Response.
Variable html_parser : string -> outcome Soup.node.
Variable urljoin : string -> string -> outcome string.
Variable check_bracketed_netloc : string -> option string.
Variable checknetloc : string -> option string.

Notation handler :=
  (get_readable_page requests_get html_parser urljoin
     check_bracketed_netloc checknetloc).

Lemma resolve_returns (url ref : string) :
  (forall ref, exists x, urljoin url ref = Returns x) ->
  exists x, resolve urljoin url ref = Returns x.
Proof.
  intros Hj. unfold resolve. destruct (PyStr.startswith ref "/"); [apply Hj|eauto].
Qed.

Lemma link_replacement_returns (url : string) (el : Soup.node) :
  (forall ref, exists x, urljoin url ref = Returns x) ->
  Soup.matches "a" "href" el = true ->
  exists s, link_replacement urljoin url el = Returns s.
Proof.
  intros Hj Hm. unfold link_replacement.
  destruct (matches_getitem _ _ _ Hm) as [href ->]. cbn [bind].
  destruct (resolve_returns url href Hj) as [x ->]. cbn [bind].
  destruct (PyStr.truthy _); eauto.
Qed.

Lemma img_replacement_returns (url : string) (el : Soup.node) :
  (forall ref, exists x, urljoin url ref = Returns x) ->
  Soup.matches "img" "src" el = true ->
  exists s, img_replacement urljoin url el = Returns s.
Proof.
  intros Hj Hm. unfold img_replacement.
  destruct (matches_getitem _ _ _ Hm) as [src ->]. cbn [bind].
  destruct (resolve_returns url src Hj) as [x ->]. cbn [bind].
  destruct (PyStr.truthy _); eauto.
Qed.

Lemma collect_returns (url name attr : string) (root : Soup.node) :
  (forall ref, exists x, urljoin url ref = Returns x) ->
  exists refs, collect urljoin url attr (Soup.find_all name attr root) = Returns refs.
Proof.
  intros Hj.
  assert (H : forall l, (forall p el, In (p, el) l -> Soup.matches name attr el = true) ->
            exists refs, collect urljoin url attr l = Returns refs).
  { induction l as [|[p el] l IH]; intros Hm; [eexists; reflexivity|].
    cbn [collect].
    destruct (matches_getitem _ _ _ (Hm p el (or_introl eq_refl))) as [ref ->].
    cbn [bind]. destruct (resolve_returns url ref Hj) as [x ->]. cbn [bind].
    destruct IH as [rest ->]; [intros q el' Hin; apply (Hm q el'); right; exact Hin|].
    eexists. reflexivity. }
  apply H. intros p el Hin. apply (find_all_node_at _ _ _ _ _ Hin).
Qed.

(** X13.  The whole request when nothing raises.  For an accepted URL, a
    GET that succeeds with an HTML content type and a body, and a
    [urljoin] that resolves every reference, the answer is determined by the
    parsed document: its anchors and then its images are replaced by their
    strings, the text of what is left is extracted, and the page carries
    that text and its estimate; when that text is empty the answer is the
    500. *)
Theorem readable_page_is_served (url u : string) (r : Response) (soup : Soup.node) :
  fetched_as check_bracketed_netloc checknetloc url u ->
  requests_get u = Returns r ->
  status_ok r ->
  declares_html r = true ->
  text r <> EmptyString ->
  html_parser (text r) = Returns soup ->
  (forall ref, exists x, urljoin u ref = Returns x) ->
  let link_string := fun el => returned (link_replacement urljoin u el) in
  let img_string := fun el => returned (img_replacement urljoin u el) in
  let content :=
    Soup.get_text " " true
      (substitute_in "img" "src" img_string
         (substitute_in "a" "href" link_string soup)) in
  handler (Some url) =
    Returns (if PyStr.truthy content
             then page u content (estimateTokenCount content)
             else fetch_failed).
Proof.
  intros Hacc Hget Hst Hct Hne Hparse Hj link_string img_string content.
  rewrite (handler_fetched_as _ _ _ _ _ url u Hacc).
  assert (Hann : annotate urljoin u soup
                 = Returns (substitute_in "img" "src" img_string
                              (substitute_in "a" "href" link_string soup))).
  { unfold annotate.
    rewrite (replace_each_substitute (link_replacement urljoin u) "a" "href" soup).
    2:{ intros p el Hin. apply (link_replacement_returns u el Hj).
        apply (find_all_node_at _ _ _ _ _ Hin). }
    cbn [bind]. apply replace_each_substitute.
    intros p el Hin. apply (img_replacement_returns u el Hj).
    apply (find_all_node_at _ _ _ _ _ Hin). }
  unfold respond, fetch_webpage_python, fetch_body.
  rewrite Hget. cbn [bind]. rewrite (raise_for_status_ok r Hst). cbn [bind].
  unfold declares_html in Hct. rewrite Hct. cbn [negb].
  apply truthy_true in Hne. rewrite Hne. cbn [negb].
  rewrite Hparse. cbn [bind]. rewrite Hann. cbn [bind]. fold content.
  rewrite (get_text_trimmed _ : PyStr.strip content = content).
  destruct (PyStr.truthy content) eqn:Ht; cbn [negb]; [|reflexivity].
  destruct (collect_returns u "a" "href" soup Hj) as [ls ->]. cbn [bind].
  destruct (collect_returns u "img" "src" soup Hj) as [ims ->]. cbn [bind].
  destruct content; [discriminate | reflexivity].
Qed.

End Page.

(** ** The size of the estimate *)

Lemma word_starts_twice (s : string) :
  forall b, (2 * word_starts b s <= String.length s + (if b then 1 else 0))%nat.
Proof.
  induction s as [|c s IH]; intros b; simpl; [lia|].
  destruct (PyStr.isspace c); [specialize (IH true); simpl in IH; lia|].
  specialize (IH false). simpl in IH. destruct b; lia.
Qed.

Lemma word_starts_app (s t : string) :
  forall b, (word_starts b s <= word_starts b (s ++ t))%nat.
Proof.
  induction s as [|c s IH]; intros b; simpl; [lia|].
  destruct (PyStr.isspace c); [apply IH|]. specialize (IH false). lia.
Qed.

Lemma length_append (s t : string) :
  String.length (s ++ t) = (String.length s + String.length t)%nat.
Proof. induction s as [|c s IH]; simpl; [reflexivity | rewrite IH; reflexivity]. Qed.

Local Open Scope Q_scope.

Lemma round_half_even_monotone (x y : Q) :
  x <= y -> (Float.round_half_even x <= Float.round_half_even y)%Z.
Proof.
  intros Hxy.
  destruct (Z_le_gt_dec (Float.round_half_even x) (Float.round_half_even y))
    as [H|H]; [exact H|exfalso].
  destruct (round_half_even_bounds x) as [Xlo Xhi].
  destruct (round_half_even_bounds y) as [Ylo Yhi].
  assert (Hz : (Float.round_half_even y + 1 <= Float.round_half_even x)%Z) by lia.
  rewrite Zle_Qle, inject_Z_plus in Hz. change (inject_Z 1) with 1 in Hz.
  assert (E : x == y) by lra.
  rewrite (round_half_even_comp x y E) in H. lia.
Qed.

Lemma estimate_is_rounded (text : string) :
  (Z.of_nat (String.length text) < 2 ^ 45)%Z ->
  estimateTokenCount text
  = Float.round_half_even
      (exact_estimate (Z.of_nat (String.length text))
         (Z.of_nat (word_starts true text))).
Proof.
  intros Hlen.
  change (estimateTokenCount text)
    with (Float.round_half_even
            (float_estimate (Z.of_nat (String.length text))
               (Z.of_nat (List.length (PyStr.split text))))).
  rewrite split_counts_words. apply float_estimate_rounds_alike; [lia|].
  pose proof (word_starts_le_length text true). lia.
Qed.

Lemma exact_estimate_monotone (L1 W1 L2 W2 : Z) :
  (L1 <= L2)%Z -> (W1 <= W2)%Z -> exact_estimate L1 W1 <= exact_estimate L2 W2.
Proof.
  intros HL HW. unfold exact_estimate.
  rewrite Zle_Qle in HL, HW.
  assert (E : forall l w, (l / 4 + w / (3 # 4)) / 2 == l * (1 # 8) + w * (2 # 3)).
  { intros. field. }
  rewrite !E. lra.
Qed.

(** X14.  The estimate is never negative and never more than the number of
    characters. *)
Theorem estimate_within_length (text : string) :
  (Z.of_nat (String.length text) < 2 ^ 45)%Z ->
  (0 <= estimateTokenCount text <= Z.of_nat (String.length text))%Z.
Proof.
  intros Hlen. rewrite (estimate_is_rounded text Hlen).
  pose proof (word_starts_twice text true) as Hw. cbv iota in Hw.
  set (L := Z.of_nat (String.length text)) in *.
  set (W := Z.of_nat (word_starts true text)).
  assert (HW : (0 <= W /\ 2 * W <= L + 1)%Z) by (unfold W, L; lia).
  assert (HL : (0 <= L)%Z) by (unfold L; lia).
  destruct (round_half_even_bounds (exact_estimate L W)) as [Blo Bhi].
  set (n := Float.round_half_even (exact_estimate L W)) in *.
  assert (E : exact_estimate L W == inject_Z L * (1 # 8) + inject_Z W * (2 # 3)).
  { unfold exact_estimate. field. }
  rewrite E in Blo, Bhi. clear E.
  destruct HW as [HW0 HW2].
  rewrite Zle_Qle in HW0, HW2, HL.
  rewrite inject_Z_mult, inject_Z_plus in HW2.
  change (inject_Z 2) with 2 in HW2. change (inject_Z 1) with 1 in HW2.
  change (inject_Z 0) with 0 in *.
  assert (H1 : inject_Z (-1) < inject_Z n).
  { change (inject_Z (-1)) with (-1). lra. }
  assert (H2 : inject_Z n < inject_Z (L + 1)).
  { rewrite inject_Z_plus. change (inject_Z 1) with 1. lra. }
  rewrite <- Zlt_Qlt in H1, H2. lia.
Qed.

(** X15.  Text added at the end never lowers the estimate. *)
Theorem estimate_grows_with_text (text more : string) :
  (Z.of_nat (String.length (text ++ more)) < 2 ^ 45)%Z ->
  (estimateTokenCount text <= estimateTokenCount (text ++ more))%Z.
Proof.
  intros Hlen. pose proof (length_append text more) as Hl.
  rewrite (estimate_is_rounded (text ++ more) Hlen).
  rewrite (estimate_is_rounded text) by lia.
  apply round_half_even_monotone, exact_estimate_monotone.
  - lia.
  - pose proof (word_starts_app text more true). lia.
Qed.

Local Open Scope string_scope.

(** ** The content type *)

Lemma lower_append (s t : string) :
  PyStr.lower (s ++ t) = PyStr.lower s ++ PyStr.lower t.
Proof. induction s as [|c s IH]; simpl; [reflexivity | rewrite IH; reflexivity]. Qed.

Lemma prefix_append (p s : string) : String.prefix p (p ++ s) = true.
Proof.
  induction p as [|c p IH]; [destruct s; reflexivity|].
  cbn [append String.prefix]. destruct (ascii_dec c c) as [_|E]; [exact IH|].
  contradiction E. reflexivity.
Qed.

Lemma contains_append (p pre post : string) :
  PyStr.contains p (pre ++ p ++ post) = true.
Proof.
  induction pre as [|c pre IH].
  - cbn [append]. destruct (p ++ post) eqn:E; cbn [PyStr.contains];
      rewrite <- E, prefix_append; reflexivity.
  - cbn [append PyStr.contains]. rewrite IH. apply orb_true_r.
Qed.

(** X16.  The content type passes the test when it holds [text/html]
    anywhere and in any letter case, whatever stands before and after, and
    whatever the letter case of the header's name. *)
Theorem html_content_type_in_any_case (status : Z) (name pre mid post body : string)
    (others : list (string * string)) :
  PyStr.lower name = "content-type" ->
  PyStr.lower mid = "text/html" ->
  declares_html (mkResponse status ((name, pre ++ mid ++ post) :: others) body) = true.
Proof.
  intros Hn Hm. unfold declares_html. cbn [headers headers_get].
  rewrite Hn. change (PyStr.lower "Content-Type") with "content-type".
  rewrite String.eqb_refl, !lower_append, Hm. apply contains_append.
Qed.

(** ** The further statements at sample requests *)

Lemma fetch_result_shape_witness :
  Sample.fetching Sample.hello "http://ex.com"
    = Returns (Some "Hello World [http://ex.com/w]", ["http://ex.com/w"], []) /\
  ((Some "Hello World [http://ex.com/w]" = None /\
    ["http://ex.com/w"] = [] /\ @nil string = []) \/
   (exists content, Some "Hello World [http://ex.com/w]" = Some content /\
                    content <> EmptyString)).
Proof.
  split; [reflexivity|].
  apply (fetch_result_shape
           (Sample.serve "text/html; charset=utf-8" Sample.hello_html)
           (Sample.parses_to Sample.hello) Sample.urljoin "http://ex.com").
  reflexivity.
Defined.

Lemma caught_exceptions_do_not_escape_witness :
  Sample.serving_json (Some "http://example.com/data.json")
    = Raises (ValueError "Expected HTML content but received application/json from http://example.com/data.json") /\
  ((exists msg,
      ValueError "Expected HTML content but received application/json from http://example.com/data.json"
      = ValueError msg) \/
   (exists msg,
      ValueError "Expected HTML content but received application/json from http://example.com/data.json"
      = BaseException msg)).
Proof.
  split; [reflexivity|].
  apply (caught_exceptions_do_not_escape
           (Sample.serve "application/json" "{}")
           (Sample.parses_to Sample.hello) Sample.urljoin
           Sample.no_check Sample.no_check (Some "http://example.com/data.json")).
  reflexivity.
Defined.

Lemma handler_responses_witness :
  Sample.serving Sample.hello (Some "http://ex.com")
    = Returns (page "http://ex.com" "Hello World [http://ex.com/w]" 6) /\
  (page "http://ex.com" "Hello World [http://ex.com/w]" 6 = url_required \/
   page "http://ex.com" "Hello World [http://ex.com/w]" 6 = invalid_url \/
   page "http://ex.com" "Hello World [http://ex.com/w]" 6 = fetch_failed \/
   exists url u content links images,
     Some "http://ex.com" = Some url /\ (u = url \/ u = "http://" ++ url) /\
     Sample.fetching Sample.hello u = Returns (Some content, links, images) /\
     page "http://ex.com" "Hello World [http://ex.com/w]" 6
       = page u content (estimateTokenCount content)).
Proof.
  split; [reflexivity|].
  apply (handler_responses
           (Sample.serve "text/html; charset=utf-8" Sample.hello_html)
           (Sample.parses_to Sample.hello) Sample.urljoin
           Sample.no_check Sample.no_check (Some "http://ex.com")).
  reflexivity.
Defined.

Lemma unknown_error_is_wrapped_witness :
  get_readable_page (Sample.serve "text/html" Sample.hello_html)
    (fun _ => Raises (OtherException "bad markup")) Sample.urljoin
    Sample.no_check Sample.no_check (Some "http://ex.com")
  = Raises (ValueError "An unknown error occurred while processing http://ex.com: bad markup").
Proof.
  apply (unknown_error_is_wrapped
           (Sample.serve "text/html" Sample.hello_html)
           (fun _ => Raises (OtherException "bad markup")) Sample.urljoin
           Sample.no_check Sample.no_check
           "http://ex.com" "http://ex.com" "bad markup").
  - exists (Url.mkParseResult "http" "ex.com").
    split; [reflexivity|]. split; [discriminate|].
    left. split; [discriminate | reflexivity].
  - right. exists (mkResponse 200 [("Content-Type", "text/html")] Sample.hello_html).
    split; [reflexivity|]. split; [left; reflexivity|].
    split; [reflexivity|]. split; [discriminate | reflexivity].
Defined.

Lemma no_double_slash_is_rejected_witness :
  PyStr.contains "//"
    (PyStr.filter_chars (fun c => negb (Url.unsafe_url_byte c)) "http:/example.com/a")
    = false /\
  Url.urlparse Sample.no_check Sample.no_check "http:/example.com/a"
    = Returns (Url.mkParseResult "http" "") /\
  Sample.serving Sample.hello (Some "http:/example.com/a") = Returns invalid_url.
Proof.
  split; [reflexivity|]. split; [reflexivity|].
  apply (no_double_slash_is_rejected
           (Sample.serve "text/html; charset=utf-8" Sample.hello_html)
           (Sample.parses_to Sample.hello) Sample.urljoin
           Sample.no_check Sample.no_check "http:/example.com/a");
    [discriminate | reflexivity].
Defined.

Lemma full_url_is_fetched_unchanged_witness :
  Url.urlparse Sample.no_check Sample.no_check "HTTPS://example.com/a"
    = Returns (Url.mkParseResult "https" "example.com") /\
  Sample.serving Sample.hello (Some "HTTPS://example.com/a")
    = respond (Sample.serve "text/html; charset=utf-8" Sample.hello_html)
        (Sample.parses_to Sample.hello) Sample.urljoin "HTTPS://example.com/a".
Proof.
  apply (full_url_is_fetched_unchanged
           (Sample.serve "text/html; charset=utf-8" Sample.hello_html)
           (Sample.parses_to Sample.hello) Sample.urljoin
           Sample.no_check Sample.no_check "HTTPS" "example.com" "a").
  - exists "H"%char, "TTPS". split; reflexivity.
  - reflexivity.
  - reflexivity.
Defined.

Lemma unclosed_bracket_raises_witness :
  Sample.serving Sample.hello (Some "http://[fe80/x")
    = Raises (ValueError "Invalid IPv6 URL").
Proof.
  apply (unclosed_bracket_raises
           (Sample.serve "text/html; charset=utf-8" Sample.hello_html)
           (Sample.parses_to Sample.hello) Sample.urljoin
           Sample.no_check Sample.no_check "http" "fe80" "x").
  - exists "h"%char, "ttp". split; reflexivity.
  - reflexivity.
  - reflexivity.
Defined.

Lemma sample_urljoin_returns (url ref : string) :
  exists x, Sample.urljoin url ref = Returns x.
Proof. eexists. reflexivity. Qed.

Lemma annotate_is_two_passes_witness :
  annotate Sample.urljoin "http://ex.com" Sample.two_images
    = Returns (Sample.document
                 [Soup.Tag "p" [] [Soup.NavigableString "See"];
                  Soup.NavigableString "[Image: cap] [http://ex.com/y.png]";
                  Soup.NavigableString "[Image] [z.png]"]).
Proof.
  apply (annotate_is_two_passes Sample.urljoin "http://ex.com" Sample.two_images).
  - intros p el Hin. vm_compute in Hin. destruct Hin.
  - intros p el Hin. vm_compute in Hin.
    destruct Hin as [E|[E|[]]]; inversion E; subst; eexists; reflexivity.
Defined.

Lemma nothing_left_to_replace_witness :
  annotate Sample.urljoin "http://example.com" Sample.linked_image
    = Returns (Sample.document [Soup.NavigableString "[http://example.com/x]"]) /\
  exists soup1,
    replace_each (link_replacement Sample.urljoin "http://example.com")
      (Soup.find_all "a" "href" Sample.linked_image) Sample.linked_image
      = Returns soup1 /\
    Soup.find_all "a" "href" soup1 = [] /\
    Soup.find_all "img" "src"
      (Sample.document [Soup.NavigableString "[http://example.com/x]"]) = [].
Proof.
  split; [reflexivity|].
  apply (nothing_left_to_replace Sample.urljoin "http://example.com"
           Sample.linked_image).
  reflexivity.
Defined.

Lemma images_inside_links_are_skipped_witness :
  replace_each (link_replacement Sample.urljoin "http://ex.com")
    (Soup.find_all "a" "href" Sample.relative_refs) Sample.relative_refs
    = Returns (Sample.document
                 [Soup.NavigableString "next [page.html]";
                  Soup.Tag "img" [("src", "pic.png")] []]) /\
  ~ is_prefix [0%nat] [1%nat].
Proof.
  split; [reflexivity|].
  apply (images_inside_links_are_skipped Sample.urljoin "http://ex.com"
           Sample.relative_refs
           (Sample.document
              [Soup.NavigableString "next [page.html]";
               Soup.Tag "img" [("src", "pic.png")] []])
           [0%nat] [1%nat]
           (Soup.Tag "a" [("href", "page.html")] [Soup.NavigableString "next"])
           (Soup.Tag "img" [("src", "pic.png")] [])).
  - reflexivity.
  - left. reflexivity.
  - left. reflexivity.
Defined.

Lemma fetched_text_is_trimmed_witness :
  Sample.fetching Sample.hello "http://ex.com"
    = Returns (Some "Hello World [http://ex.com/w]", ["http://ex.com/w"], []) /\
  PyStr.strip "Hello World [http://ex.com/w]" = "Hello World [http://ex.com/w]".
Proof.
  split; [reflexivity|].
  apply (fetched_text_is_trimmed
           (Sample.serve "text/html; charset=utf-8" Sample.hello_html)
           (Sample.parses_to Sample.hello) Sample.urljoin "http://ex.com"
           "Hello World [http://ex.com/w]" ["http://ex.com/w"] []).
  reflexivity.
Defined.

Lemma links_match_annotations_witness :
  exists r soup,
    Sample.serve "text/html; charset=utf-8" Sample.hello_html "http://ex.com"
      = Returns r /\
    Sample.parses_to Sample.hello (text r) = Returns soup /\
    Forall2 (fun el resolved =>
               let link_text := Soup.get_text "" true (snd el) in
               link_replacement Sample.urljoin "http://ex.com" (snd el)
               = Returns (if PyStr.truthy link_text
                          then link_text ++ " [" ++ resolved ++ "]"
                          else "[" ++ resolved ++ "]"))
            (Soup.find_all "a" "href" soup) ["http://ex.com/w"].
Proof.
  apply (links_match_annotations
           (Sample.serve "text/html; charset=utf-8" Sample.hello_html)
           (Sample.parses_to Sample.hello) Sample.urljoin "http://ex.com"
           "Hello World [http://ex.com/w]" ["http://ex.com/w"] []).
  reflexivity.
Defined.

Lemma readable_page_is_served_witness :
  Sample.serving Sample.hello (Some "http://ex.com")
    = Returns (page "http://ex.com" "Hello World [http://ex.com/w]" 6).
Proof.
  apply (readable_page_is_served
           (Sample.serve "text/html; charset=utf-8" Sample.hello_html)
           (Sample.parses_to Sample.hello) Sample.urljoin
           Sample.no_check Sample.no_check "http://ex.com" "http://ex.com"
           (mkResponse 200 [("Content-Type", "text/html; charset=utf-8")]
              Sample.hello_html)
           Sample.hello).
  - exists (Url.mkParseResult "http" "ex.com").
    split; [reflexivity|]. split; [discriminate|].
    left. split; [discriminate | reflexivity].
  - reflexivity.
  - left. reflexivity.
  - reflexivity.
  - discriminate.
  - reflexivity.
  - exact (sample_urljoin_returns "http://ex.com").
Defined.

Lemma estimate_within_length_witness :
  (Z.of_nat (String.length "ab cd") < 2 ^ 45)%Z /\
  (0 <= estimateTokenCount "ab cd" <= 5)%Z.
Proof.
  split; [reflexivity|].
  apply (estimate_within_length "ab cd"). reflexivity.
Defined.

Lemma estimate_grows_with_text_witness :
  (Z.of_nat (String.length ("ab cd" ++ " ef")) < 2 ^ 45)%Z /\
  (estimateTokenCount "ab cd" <= estimateTokenCount "ab cd ef")%Z.
Proof.
  split; [reflexivity|].
  apply (estimate_grows_with_text "ab cd" " ef"). reflexivity.
Defined.

Lemma html_content_type_in_any_case_witness :
  declares_html
    (mkResponse 200 [("content-type", "application/xhtml+xml, Text/HTML; charset=utf-8")]
       "<html>") = true.
Proof.
  apply (html_content_type_in_any_case 200 "content-type"
           "application/xhtml+xml, " "Text/HTML" "; charset=utf-8" "<html>" []);
    reflexivity.
Defined.
